(** * DLFS: a lost-and-found record store (dlfs.py)

    A shallow embedding of the storage adapter ([load_data], [save_data]) and
    of the record store ([DLFSController]) of [dlfs.py], with the properties
    of the specification proved about it.

    Modelling choices.
    - A Python [str] is a [string]; its characters stand for the code points
      U+0000 to U+00FF.
    - A Python object stored in a record field is a [value]: an [int] or a
      [str], the two kinds of field the program creates.
    - A Python [dict] is an association list in insertion order, read with
      [getitem] and written with [setitem] as [d[k]] and [d[k] = v] do.
    - A raised exception is a [Raise] result; the store's methods run in a
      state-and-exception monad over the [World]: the three in-memory lists
      of the controller and the files under the data directory.
    - [random.randint] is an input: the number drawn is an argument of the
      constructor that draws it.
    - The [json] module is modelled by [Json.dumps] and [Json.loads]. The
      content of a file is a text, and decoding one has three outcomes. A
      text of the shape the store writes, an array of flat objects whose
      values are ints and strs, decodes to its records ([Json.records]). A
      text that the grammar of the decoder refuses ([Json.check]) is a
      [JSONDecodeError]. Any other text is JSON of another shape (nested
      values, floats, [null], [true], [false], code points from U+0100 on,
      a value that is not an array) or passes a limit of the interpreter
      ([Json.max_depth], [Json.max_digits]): the decoder returns a value
      that the model does not represent, or gives up with another error
      than [JSONDecodeError], and the run leaves the model ([Unmodelled]).
    - Failures of the operating system on a file (a full disk, a missing
      directory, bytes that are not text) are outside the model; a missing
      file is in it. *)

From Stdlib Require Import ZArith NArith List Ascii Bool Lia.
From Stdlib Require Import DecimalString DecimalN DecimalFacts.
From stdpp Require Import base option list strings gmap.

Local Open Scope Z_scope.

#[local] Arguments String.append : simpl nomatch.

(** ** Python values *)

Module Py.

Inductive value : Type :=
| VInt (n : Z)
| VStr (s : string).

#[global] Instance value_eq_dec : EqDecision value.
Proof. solve_decision. Defined.

(** [a == b] on ints and strs: never equal across the two types. *)
Definition py_eq (a b : value) : bool :=
  match a, b with
  | VInt m, VInt n => Z.eqb m n
  | VStr s, VStr t => String.eqb s t
  | _, _ => false
  end.

(** The exceptions of the program, and [Unmodelled]: no exception, the
    mark of a run that has left the model at the file [path]. *)
Inductive exn : Type :=
| KeyError (key : string)
| AttributeError (attr : string)
| FileNotFoundError (path : string)
| Unmodelled (path : string).

Inductive result (A : Type) : Type :=
| Ok (a : A)
| Raise (e : exn).
Arguments Ok {A} a.
Arguments Raise {A} e.

(** *** dict *)

Definition dict : Type := list (string * value).

Definition keys (d : dict) : list string := map fst d.

Fixpoint get (k : string) (d : dict) : option value :=
  match d with
  | [] => None
  | (k', v) :: rest => if String.eqb k' k then Some v else get k rest
  end.

(** [d[k]]: raises [KeyError] on a missing key. *)
Definition getitem (k : string) (d : dict) : result value :=
  match get k d with
  | Some v => Ok v
  | None => Raise (KeyError k)
  end.

(** [d[k] = v]: replaces the value of an existing key in place, and puts a
    new key last. *)
Fixpoint setitem (k : string) (v : value) (d : dict) : dict :=
  match d with
  | [] => [(k, v)]
  | (k', v') :: rest =>
      if String.eqb k' k then (k', v) :: rest else (k', v') :: setitem k v rest
  end.

(** The keys of a Python dict are pairwise distinct. *)
Definition dict_ok (d : dict) : Prop := NoDup (keys d).

(** *** str *)

Definition code (c : ascii) : N := N_of_ascii c.

(** [str.lower] on one code point below U+0100: A-Z, and the Latin-1 capitals
    U+00C0-U+00DE except the multiplication sign U+00D7, move up by 32. *)
Definition lower_char (c : ascii) : ascii :=
  let n := code c in
  if ((65 <=? n) && (n <=? 90))%N then ascii_of_N (n + 32)
  else if ((192 <=? n) && (n <=? 222) && negb (n =? 215))%N then ascii_of_N (n + 32)
  else c.

Fixpoint lower (s : string) : string :=
  match s with
  | EmptyString => EmptyString
  | String c r => String (lower_char c) (lower r)
  end.

Fixpoint startswith (p s : string) : bool :=
  match p, s with
  | EmptyString, _ => true
  | String a p', String b s' => Ascii.eqb a b && startswith p' s'
  | String _ _, EmptyString => false
  end.

(** [k in s] for two strs: [k] occurs in [s] as a substring. *)
Fixpoint str_in (k s : string) : bool :=
  startswith k s ||
  match s with
  | EmptyString => false
  | String _ s' => str_in k s'
  end.

(** [str(n)] for an int. *)
Definition str_of_N (n : N) : string := NilEmpty.string_of_uint (N.to_uint n).

Definition str_of_int (n : Z) : string :=
  match n with
  | Zneg p => String "-" (str_of_N (Npos p))
  | _ => str_of_N (Z.to_N n)
  end.

End Py.
Export Py.

(** ** The json module

    The encoder and the decoder on sequences of flat records, and the
    grammar of the decoder on every text. *)

Module Json.

Definition quote : ascii := "034"%char.
Definition backslash : ascii := "092"%char.
Definition LF : ascii := "010"%char.

(** *** Encoder: [json.dumps(data, indent=4)] *)

Definition hex_digit (n : N) : ascii :=
  if (n <? 10)%N then ascii_of_N (48 + n) else ascii_of_N (87 + n).

(** One character of a string under [ensure_ascii]: the quote and the
    backslash get a backslash, the five usual control characters their
    letter, printable ASCII stays, anything else becomes [\u00xx]. *)
Definition escape_char (c : ascii) : string :=
  let n := code c in
  if (n =? 34)%N then String backslash (String quote EmptyString)
  else if (n =? 92)%N then String backslash (String backslash EmptyString)
  else if (n =? 8)%N then String backslash "b"
  else if (n =? 12)%N then String backslash "f"
  else if (n =? 10)%N then String backslash "n"
  else if (n =? 13)%N then String backslash "r"
  else if (n =? 9)%N then String backslash "t"
  else if ((32 <=? n) && (n <=? 126))%N then String c EmptyString
  else String backslash
         ("u00" +:+ String (hex_digit (n / 16)) (String (hex_digit (n mod 16)) EmptyString)).

Fixpoint escape (s : string) : string :=
  match s with
  | EmptyString => EmptyString
  | String c r => escape_char c +:+ escape r
  end.

Definition encode_string (s : string) : string :=
  String quote (escape s +:+ String quote EmptyString).

Definition encode_value (v : value) : string :=
  match v with
  | VInt n => str_of_int n
  | VStr s => encode_string s
  end.

Fixpoint spaces (n : nat) : string :=
  match n with
  | O => EmptyString
  | S n' => String " " (spaces n')
  end.

(** A line break followed by the indentation of nesting depth [level]. *)
Definition newline_indent (level : nat) : string :=
  String LF (spaces (4 * level)).

Definition encode_member (kv : string * value) : string :=
  encode_string (fst kv) +:+ ": " +:+ encode_value (snd kv).

Fixpoint encode_members (kv : string * value) (rest : dict) : string :=
  match rest with
  | [] => encode_member kv
  | kv' :: rest' =>
      encode_member kv +:+ "," +:+ newline_indent 2 +:+ encode_members kv' rest'
  end.

Definition encode_dict (d : dict) : string :=
  match d with
  | [] => "{}"
  | kv :: rest =>
      "{" +:+ newline_indent 2 +:+ encode_members kv rest +:+ newline_indent 1 +:+ "}"
  end.

Fixpoint encode_elements (d : dict) (rest : list dict) : string :=
  match rest with
  | [] => encode_dict d
  | d' :: rest' =>
      encode_dict d +:+ "," +:+ newline_indent 1 +:+ encode_elements d' rest'
  end.

Definition dumps (data : list dict) : string :=
  match data with
  | [] => "[]"
  | d :: rest => "[" +:+ newline_indent 1 +:+ encode_elements d rest +:+ String LF "]"
  end.

(** *** Decoder: the records of a text *)

Inductive token : Type :=
| LBracket | RBracket | LBrace | RBrace | Colon | Comma
| TString (s : string)
| TInt (n : Z).

Definition is_ws (c : ascii) : bool :=
  let n := code c in ((n =? 32) || (n =? 9) || (n =? 10) || (n =? 13))%N.

Definition is_digit (c : ascii) : bool :=
  let n := code c in ((48 <=? n) && (n <=? 57))%N.

Definition hex_value (c : ascii) : option N :=
  let n := code c in
  if ((48 <=? n) && (n <=? 57))%N then Some (n - 48)%N
  else if ((97 <=? n) && (n <=? 102))%N then Some (n - 87)%N
  else if ((65 <=? n) && (n <=? 70))%N then Some (n - 55)%N
  else None.

(** The code point of [\uXXXX], when it is one of the code points of the
    model. *)
Definition unicode_escape (h1 h2 h3 h4 : ascii) : option ascii :=
  match hex_value h1, hex_value h2, hex_value h3, hex_value h4 with
  | Some a, Some b, Some c, Some d =>
      let n := (((a * 16 + b) * 16 + c) * 16 + d)%N in
      if (n <? 256)%N then Some (ascii_of_N n) else None
  | _, _, _, _ => None
  end.

Definition simple_escape (e : ascii) : option ascii :=
  let n := code e in
  if (n =? 34)%N then Some quote
  else if (n =? 92)%N then Some backslash
  else if (n =? 47)%N then Some "/"%char
  else if (n =? 98)%N then Some "008"%char
  else if (n =? 102)%N then Some "012"%char
  else if (n =? 110)%N then Some LF
  else if (n =? 114)%N then Some "013"%char
  else if (n =? 116)%N then Some "009"%char
  else None.

(** What may follow a number: white space or one of the closing or
    separating characters; [k] is the token list of the text after [c]. *)
Definition delimiter (c : ascii) (k : option (list token)) : option (list token) :=
  let n := code c in
  if is_ws c then k
  else if (n =? 44)%N then cons Comma <$> k
  else if (n =? 93)%N then cons RBracket <$> k
  else if (n =? 125)%N then cons RBrace <$> k
  else None.

Definition int_of_digits (neg : bool) (ds : string) : option Z :=
  match NilEmpty.uint_of_string ds with
  | Some u => Some (if neg then (- Z.of_N (N.of_uint u)) else Z.of_N (N.of_uint u))
  | None => None
  end.

Definition number_token (neg : bool) (ds : string) (ts : list token)
  : option (list token) :=
  match int_of_digits neg ds with
  | Some n => Some (TInt n :: ts)
  | None => None
  end.

(** The scanner: [lex] between tokens, [lex_string] inside a string after
    its opening quote, [lex_digits] inside the digits of a number. The
    latter two return what they read with the tokens of the rest. The
    integer part of a number is a lone [0] or starts with another digit. *)
Fixpoint lex (s : string) : option (list token) :=
  match s with
  | EmptyString => Some []
  | String c r =>
      let n := code c in
      if is_ws c then lex r
      else if (n =? 91)%N then cons LBracket <$> lex r
      else if (n =? 93)%N then cons RBracket <$> lex r
      else if (n =? 123)%N then cons LBrace <$> lex r
      else if (n =? 125)%N then cons RBrace <$> lex r
      else if (n =? 58)%N then cons Colon <$> lex r
      else if (n =? 44)%N then cons Comma <$> lex r
      else if (n =? 34)%N then
        match lex_string r with
        | Some (str, ts) => Some (TString str :: ts)
        | None => None
        end
      else if (n =? 48)%N then
        match r with
        | EmptyString => Some [TInt 0]
        | String c' r' => cons (TInt 0) <$> delimiter c' (lex r')
        end
      else if is_digit c then
        match lex_digits r with
        | Some (ds, ts) => number_token false (String c ds) ts
        | None => None
        end
      else if (n =? 45)%N then
        match r with
        | String d r' =>
            if (code d =? 48)%N then
              match r' with
              | EmptyString => Some [TInt 0]
              | String c' r'' => cons (TInt 0) <$> delimiter c' (lex r'')
              end
            else if is_digit d then
              match lex_digits r' with
              | Some (ds, ts) => number_token true (String d ds) ts
              | None => None
              end
            else None
        | EmptyString => None
        end
      else None
  end
with lex_digits (s : string) : option (string * list token) :=
  match s with
  | EmptyString => Some (EmptyString, [])
  | String c r =>
      if is_digit c then
        match lex_digits r with
        | Some (ds, ts) => Some (String c ds, ts)
        | None => None
        end
      else
        match delimiter c (lex r) with
        | Some ts => Some (EmptyString, ts)
        | None => None
        end
  end
with lex_string (s : string) : option (string * list token) :=
  match s with
  | EmptyString => None
  | String c r =>
      let n := code c in
      if (n =? 34)%N then
        match lex r with
        | Some ts => Some (EmptyString, ts)
        | None => None
        end
      else if (n =? 92)%N then
        match r with
        | String e r' =>
            if (code e =? 117)%N then
              match r' with
              | String h1 (String h2 (String h3 (String h4 r''))) =>
                  match unicode_escape h1 h2 h3 h4, lex_string r'' with
                  | Some u, Some (str, ts) => Some (String u str, ts)
                  | _, _ => None
                  end
              | _ => None
              end
            else
              match simple_escape e, lex_string r' with
              | Some u, Some (str, ts) => Some (String u str, ts)
              | _, _ => None
              end
        | EmptyString => None
        end
      else if (n <? 32)%N then None
      else
        match lex_string r with
        | Some (str, ts) => Some (String c str, ts)
        | None => None
        end
  end.

Definition value_of_token (t : token) : option value :=
  match t with
  | TString s => Some (VStr s)
  | TInt n => Some (VInt n)
  | _ => None
  end.

(** The parser on tokens: [parse_elements] at the start of an object of the
    array, [parse_members d] at the start of a member of the object whose
    members read so far are [d]. A repeated key keeps its place and takes
    the later value, as the dict built by the decoder does. *)
Fixpoint parse_elements (ts : list token) : option (list dict) :=
  match ts with
  | LBrace :: RBrace :: Comma :: ts' => cons [] <$> parse_elements ts'
  | LBrace :: RBrace :: RBracket :: [] => Some [[]]
  | LBrace :: ts' => parse_members [] ts'
  | _ => None
  end
with parse_members (d : dict) (ts : list token) : option (list dict) :=
  match ts with
  | TString k :: Colon :: t :: Comma :: ts' =>
      match value_of_token t with
      | Some v => parse_members (setitem k v d) ts'
      | None => None
      end
  | TString k :: Colon :: t :: RBrace :: Comma :: ts' =>
      match value_of_token t with
      | Some v => cons (setitem k v d) <$> parse_elements ts'
      | None => None
      end
  | TString k :: Colon :: t :: RBrace :: RBracket :: [] =>
      match value_of_token t with
      | Some v => Some [setitem k v d]
      | None => None
      end
  | _ => None
  end.

(** The records of a whole text, white space allowed around every token
    and nothing allowed after the closing bracket; [None] when the text is
    not an array of flat objects of ints and strs. *)
Definition records (text : string) : option (list dict) :=
  match lex text with
  | Some (LBracket :: RBracket :: []) => Some []
  | Some (LBracket :: ts) => parse_elements ts
  | _ => None
  end.

(** *** The grammar of the decoder *)

(** The decoder reads any JSON text. [check] follows it over a whole text,
    one character at a time: the [mode] tells where the scanner is, the
    stack which arrays and objects are open around it. *)
Inductive container : Type := InArray | InObject.

(** Between two tokens: what has to come next. *)
Inductive place : Type :=
| AtValue          (* a value: at the start, after a comma of an array, after a colon *)
| AtFirstElement   (* after [[]: a value or the closing bracket *)
| AtFirstKey       (* after [{]: a key or the closing brace *)
| AtKey            (* after a comma of an object: a key *)
| AtColon          (* after a key: the colon *)
| AfterValue.      (* after a value: a comma, the closing character, or the end *)

Inductive mode : Type :=
| Between (p : place)
| InString (key : bool)              (* in a string; [key]: it is a key *)
| InEscape (key : bool)              (* after a backslash *)
| InHex (key : bool) (more : nat)    (* in [\uXXXX]: [S more] digits to come *)
| InLiteral (rest : string)          (* in [null], [true], ...: [rest] to come *)
| AfterMinus
| AfterZero                          (* after the lone [0] of an integer part *)
| InInt (digits : nat)               (* in an integer part of [digits] digits *)
| AfterDot
| InFrac
| AfterE
| AfterSign
| InExp
| Failed                             (* the text is refused *)
| Overflow.                          (* the text has passed a limit *)

(** The limits of the interpreter. The decoder recurses on every array and
    object and gives up with a [RecursionError] at the recursion limit,
    which no version sets below [max_depth]; it converts an integer part
    with [int], which versions with a limit on the digits of an int refuse
    with a [ValueError] when it has more than [max_digits] digits. A text
    that passes a limit is not followed further. *)
Definition max_depth : nat := 100.
Definition max_digits : nat := 4300.

Definition open (k : container) (p : place) (st : list container)
  : mode * list container :=
  if (length st <? max_depth)%nat then (Between p, k :: st) else (Overflow, st).

Definition is_e (c : ascii) : bool :=
  let n := code c in ((n =? 101) || (n =? 69))%N.

(** The first character of a value. The literals are [null], [true],
    [false], [NaN], [Infinity] and [-Infinity]. *)
Definition start_value (st : list container) (c : ascii) : mode * list container :=
  let n := code c in
  if (n =? 34)%N then (InString false, st)
  else if (n =? 91)%N then open InArray AtFirstElement st
  else if (n =? 123)%N then open InObject AtFirstKey st
  else if (n =? 110)%N then (InLiteral "ull", st)
  else if (n =? 116)%N then (InLiteral "rue", st)
  else if (n =? 102)%N then (InLiteral "alse", st)
  else if (n =? 78)%N then (InLiteral "aN", st)
  else if (n =? 73)%N then (InLiteral "nfinity", st)
  else if (n =? 45)%N then (AfterMinus, st)
  else if (n =? 48)%N then (AfterZero, st)
  else if is_digit c then (InInt 1, st)
  else (Failed, st).

(** The character after a value, which is an element of the array or a
    member of the object on top of the stack, or the whole text. *)
Definition after_value (st : list container) (c : ascii) : mode * list container :=
  let n := code c in
  if is_ws c then (Between AfterValue, st)
  else
    match st with
    | [] => (Failed, st)
    | InArray :: st' =>
        if (n =? 44)%N then (Between AtValue, st)
        else if (n =? 93)%N then (Between AfterValue, st')
        else (Failed, st)
    | InObject :: st' =>
        if (n =? 44)%N then (Between AtKey, st)
        else if (n =? 125)%N then (Between AfterValue, st')
        else (Failed, st)
    end.

Definition step (m : mode) (st : list container) (c : ascii) : mode * list container :=
  let n := code c in
  match m with
  | Between AtValue => if is_ws c then (m, st) else start_value st c
  | Between AtFirstElement =>
      if is_ws c then (m, st)
      else if (n =? 93)%N then (Between AfterValue, tail st)
      else start_value st c
  | Between AtFirstKey =>
      if is_ws c then (m, st)
      else if (n =? 125)%N then (Between AfterValue, tail st)
      else if (n =? 34)%N then (InString true, st)
      else (Failed, st)
  | Between AtKey =>
      if is_ws c then (m, st)
      else if (n =? 34)%N then (InString true, st)
      else (Failed, st)
  | Between AtColon =>
      if is_ws c then (m, st)
      else if (n =? 58)%N then (Between AtValue, st)
      else (Failed, st)
  | Between AfterValue => after_value st c
  | InString key =>
      if (n =? 34)%N then (Between (if key then AtColon else AfterValue), st)
      else if (n =? 92)%N then (InEscape key, st)
      else if (n <? 32)%N then (Failed, st)
      else (m, st)
  | InEscape key =>
      if (n =? 117)%N then (InHex key 3, st)
      else
        match simple_escape c with
        | Some _ => (InString key, st)
        | None => (Failed, st)
        end
  | InHex key more =>
      match hex_value c, more with
      | Some _, O => (InString key, st)
      | Some _, S more' => (InHex key more', st)
      | None, _ => (Failed, st)
      end
  | InLiteral rest =>
      match rest with
      | String x EmptyString => if Ascii.eqb c x then (Between AfterValue, st) else (Failed, st)
      | String x rest' => if Ascii.eqb c x then (InLiteral rest', st) else (Failed, st)
      | EmptyString => (Failed, st)
      end
  | AfterMinus =>
      if (n =? 48)%N then (AfterZero, st)
      else if is_digit c then (InInt 1, st)
      else if (n =? 73)%N then (InLiteral "nfinity", st)
      else (Failed, st)
  | AfterZero =>
      if (n =? 46)%N then (AfterDot, st)
      else if is_e c then (AfterE, st)
      else after_value st c
  | InInt digits =>
      if is_digit c then
        if (digits <? max_digits)%nat then (InInt (S digits), st) else (Overflow, st)
      else if (n =? 46)%N then (AfterDot, st)
      else if is_e c then (AfterE, st)
      else after_value st c
  | AfterDot => if is_digit c then (InFrac, st) else (Failed, st)
  | InFrac =>
      if is_digit c then (InFrac, st)
      else if is_e c then (AfterE, st)
      else after_value st c
  | AfterE =>
      if is_digit c then (InExp, st)
      else if ((n =? 43) || (n =? 45))%N then (AfterSign, st)
      else (Failed, st)
  | AfterSign => if is_digit c then (InExp, st) else (Failed, st)
  | InExp => if is_digit c then (InExp, st) else after_value st c
  | Failed | Overflow => (m, st)
  end.

Fixpoint scan (m : mode) (st : list container) (s : string) : mode * list container :=
  match s with
  | EmptyString => (m, st)
  | String c r => let (m', st') := step m st c in scan m' st' r
  end.

Inductive verdict : Type :=
| Valid      (* the decoder returns a value *)
| Invalid    (* the decoder raises [JSONDecodeError] *)
| Beyond.    (* the text passes [max_depth] or [max_digits] *)

(** At the end of the text one value has been read and nothing is open. *)
Definition verdict_at_end (m : mode) (st : list container) : verdict :=
  match m, st with
  | Overflow, _ => Beyond
  | (Between AfterValue | AfterZero | InInt _ | InFrac | InExp), [] => Valid
  | _, _ => Invalid
  end.

Definition check (text : string) : verdict :=
  let (m, st) := scan (Between AtValue) [] text in verdict_at_end m st.

(** [json.loads] on a whole text. [Other] is a text that the decoder
    accepts and that has not the shape the store writes, or a text that
    passes a limit of the interpreter: the model does not say what the
    decoder makes of it. *)
Inductive decoded : Type :=
| Decoded (data : list dict)
| JSONDecodeError
| Other.

Definition loads (text : string) : decoded :=
  match records text with
  | Some data => Decoded data
  | None =>
      match check text with
      | Invalid => JSONDecodeError
      | Valid | Beyond => Other
      end
  end.

(** *** The tokens of an encoding *)

(** The tokens of the text that [dumps] writes. *)
Definition token_of_value (v : value) : token :=
  match v with
  | VInt n => TInt n
  | VStr s => TString s
  end.

Fixpoint tokens_members (kv : string * value) (rest : dict) : list token :=
  match rest with
  | [] => [TString (fst kv); Colon; token_of_value (snd kv)]
  | kv' :: rest' =>
      TString (fst kv) :: Colon :: token_of_value (snd kv) :: Comma ::
      tokens_members kv' rest'
  end.

Definition tokens_dict (d : dict) : list token :=
  match d with
  | [] => [LBrace; RBrace]
  | kv :: rest => LBrace :: tokens_members kv rest ++ [RBrace]
  end.

Fixpoint tokens_elements (d : dict) (rest : list dict) : list token :=
  match rest with
  | [] => tokens_dict d
  | d' :: rest' => tokens_dict d ++ Comma :: tokens_elements d' rest'
  end.

Definition tokens (data : list dict) : list token :=
  match data with
  | [] => [LBracket; RBracket]
  | d :: rest => LBracket :: tokens_elements d rest ++ [RBracket]
  end.

Fixpoint all_digits (s : string) : bool :=
  match s with
  | EmptyString => true
  | String c r => is_digit c && all_digits r
  end.

End Json.

(** ** The world and the monad of the store *)

(** The controller's three in-memory lists and the files on disk, by path. *)
Record World : Type := mkWorld {
  users : list dict;
  items : list dict;
  claims : list dict;
  disk : gmap string string
}.

Definition set_users (us : list dict) (w : World) : World :=
  mkWorld us (items w) (claims w) (disk w).
Definition set_items (its : list dict) (w : World) : World :=
  mkWorld (users w) its (claims w) (disk w).
Definition set_claims (cs : list dict) (w : World) : World :=
  mkWorld (users w) (items w) cs (disk w).
Definition set_disk (fs : gmap string string) (w : World) : World :=
  mkWorld (users w) (items w) (claims w) fs.

#[global] Instance result_ret : MRet result := @Ok.
#[global] Instance result_bind : MBind result := fun A B k r =>
  match r with
  | Ok a => k a
  | Raise e => Raise e
  end.

(** A computation returns or raises, and leaves a world either way. *)
Definition M (A : Type) : Type := World -> result A * World.

#[global] Instance M_ret : MRet M := fun A a w => (Ok a, w).
#[global] Instance M_bind : MBind M := fun A B k m w =>
  match m w with
  | (Ok a, w') => k a w'
  | (Raise e, w') => (Raise e, w')
  end.

Definition lift {A} (r : result A) : M A := fun w => (r, w).
Definition gets {A} (f : World -> A) : M A := fun w => (Ok (f w), w).
Definition modify (f : World -> World) : M unit := fun w => (Ok tt, f w).

(** ** Storage adapter *)

Definition DATA_DIR : string := "data".

(** [os.path.join] of a directory and a relative file name. *)
Definition path_join (dir file : string) : string := dir +:+ "/" +:+ file.

(** [load_data]: opening a missing file raises; a file that the decoder
    refuses gives the empty list; any other file gives what the decoder
    returns, which the model follows when it is a list of records. *)
Definition load_data (file_name : string) : M (list dict) :=
  let path := path_join DATA_DIR file_name in
  fs ← gets disk;
  match fs !! path with
  | None => lift (Raise (FileNotFoundError path))
  | Some text =>
      match Json.loads text with
      | Json.Decoded data => mret data
      | Json.JSONDecodeError => mret []
      | Json.Other => lift (Raise (Unmodelled path))
      end
  end.

(** [save_data]: the file is replaced by the encoding of [data]. *)
Definition save_data (file_name : string) (data : list dict) : M unit :=
  let path := path_join DATA_DIR file_name in
  modify (fun w => set_disk (<[path := Json.dumps data]> (disk w)) w).

(** The start of the module: each of the three files that does not exist is
    created, [users.json] with the default admin account. *)
Definition default_admin : dict :=
  [("id", VInt 1); ("name", VStr "Admin"); ("email", VStr "admin@dlfs.com");
   ("password", VStr "admin123"); ("role", VStr "admin")].

Definition create_missing (file : string) : M unit :=
  let path := path_join DATA_DIR file in
  fs ← gets disk;
  match fs !! path with
  | Some _ => mret tt
  | None =>
      if String.eqb file "users.json"
      then modify (set_disk (<[path := Json.dumps [default_admin]]> fs))
      else modify (set_disk (<[path := Json.dumps []]> fs))
  end.

Definition bootstrap : M unit :=
  create_missing "users.json";;
  create_missing "items.json";;
  create_missing "claims.json".

(** ** Classes *)

Module ReportedItem.
Record t : Type := mk {
  item_id : string;
  name : value;
  description : value;
  location : value;
  item_type : value;
  status : string
}.

(** [ReportedItem(name, description, location, item_type)], with [r] the
    number drawn by [random.randint(1000, 9999)]. *)
Definition __init__ (r : Z) (name description location item_type : value) : t :=
  mk ("ITEM-" +:+ str_of_int r) name description location item_type "reported".

(** The attributes in the order of their assignment. *)
Definition __dict__ (self : t) : dict :=
  [("item_id", VStr (item_id self)); ("name", name self);
   ("description", description self); ("location", location self);
   ("item_type", item_type self); ("status", VStr (status self))].
End ReportedItem.

Module Claim.
Record t : Type := mk {
  claim_id : string;
  user_id : value;
  item_id : value;
  status : string
}.

(** [Claim(user_id, item_id)], with [r] the number drawn. *)
Definition __init__ (r : Z) (user_id item_id : value) : t :=
  mk ("CLM-" +:+ str_of_int r) user_id item_id "pending".

Definition __dict__ (self : t) : dict :=
  [("claim_id", VStr (claim_id self)); ("user_id", user_id self);
   ("item_id", item_id self); ("status", VStr (status self))].
End Claim.

(** ** Controller *)

Module DLFSController.

(** [__init__]: the three lists are read from their files. *)
Definition __init__ : M unit :=
  us ← load_data "users.json";
  modify (set_users us);;
  its ← load_data "items.json";
  modify (set_items its);;
  cs ← load_data "claims.json";
  modify (set_claims cs).

Definition save_all : M unit :=
  us ← gets users;
  save_data "users.json" us;;
  its ← gets items;
  save_data "items.json" its;;
  cs ← gets claims;
  save_data "claims.json" cs.

(** The loop of [login] over the users not yet visited. *)
Fixpoint login_loop (email password : value) (us : list dict) : result (option dict) :=
  match us with
  | [] => mret None
  | user :: rest =>
      e ← getitem "email" user;
      if py_eq e email then
        p ← getitem "password" user;
        if py_eq p password then mret (Some user)
        else login_loop email password rest
      else login_loop email password rest
  end.

Definition login (email password : value) : M (option dict) :=
  us ← gets users;
  lift (login_loop email password us).

Definition report_item (r : Z) (name description location item_type user_id : value)
  : M string :=
  let item := ReportedItem.__init__ r name description location item_type in
  modify (fun w => set_items (items w ++ [ReportedItem.__dict__ item]) w);;
  save_all;;
  mret (ReportedItem.item_id item).

(** [keyword.lower() in item["name"].lower()]; an int has no [lower]. *)
Definition name_matches (keyword : string) (item : dict) : result bool :=
  n ← getitem "name" item;
  match n with
  | VStr s => mret (str_in (lower keyword) (lower s))
  | VInt _ => Raise (AttributeError "lower")
  end.

(** The list comprehension of [search_items]. *)
Fixpoint search_loop (keyword : string) (its : list dict) : result (list dict) :=
  match its with
  | [] => mret []
  | item :: rest =>
      b ← name_matches keyword item;
      found ← search_loop keyword rest;
      mret (if (b : bool) then item :: found else found)
  end.

Definition search_items (keyword : string) : M (list dict) :=
  its ← gets items;
  lift (search_loop keyword its).

Definition claim_item (r : Z) (user_id item_id : value) : M string :=
  let claim := Claim.__init__ r user_id item_id in
  modify (fun w => set_claims (claims w ++ [Claim.__dict__ claim]) w);;
  save_all;;
  mret (Claim.claim_id claim).

(** The inner loop of [approve_claim] over the items not yet visited; the
    items it returns are those of the list after the loop, or after the
    part of it that ran before an exception. *)
Fixpoint claim_items (claim : dict) (its : list dict) : result unit * list dict :=
  match its with
  | [] => (Ok tt, [])
  | item :: rest =>
      match getitem "item_id" item with
      | Raise e => (Raise e, its)
      | Ok a =>
          match getitem "item_id" claim with
          | Raise e => (Raise e, its)
          | Ok b =>
              let item' :=
                if py_eq a b then setitem "status" (VStr "claimed") item else item in
              let (r, rest') := claim_items claim rest in
              (r, item' :: rest')
          end
      end
  end.

Definition update_items (claim : dict) : M unit := fun w =>
  let (r, its) := claim_items claim (items w) in (r, set_items its w).

(** The outer loop of [approve_claim]: [visited] are the claims already
    passed, [cs] those still to visit. *)
Fixpoint approve_loop (claim_id : value) (visited cs : list dict) : M bool :=
  match cs with
  | [] => mret false
  | claim :: rest =>
      c ← lift (getitem "claim_id" claim);
      if py_eq c claim_id then
        let claim' := setitem "status" (VStr "approved") claim in
        modify (set_claims (visited ++ claim' :: rest));;
        update_items claim';;
        save_all;;
        mret true
      else approve_loop claim_id (visited ++ [claim]) rest
  end.

Definition approve_claim (claim_id : value) : M bool :=
  cs ← gets claims;
  approve_loop claim_id [] cs.

End DLFSController.
Export DLFSController.

(** ** Records of the data model *)

Definition has_key (k : string) (d : dict) : bool :=
  match get k d with
  | Some _ => true
  | None => false
  end.

Definition has_fields (ks : list string) (d : dict) : bool :=
  forallb (fun k => has_key k d) ks.

(** The field [k] is there and holds a str. *)
Definition has_str (k : string) (d : dict) : bool :=
  match get k d with
  | Some (VStr _) => true
  | _ => false
  end.

(** The fields of the three kinds of record, as the files lay them out. *)
Definition user_fields : list string := ["id"; "name"; "email"; "password"; "role"].
Definition item_fields : list string :=
  ["item_id"; "name"; "description"; "location"; "item_type"; "status"].
Definition claim_fields : list string := ["claim_id"; "user_id"; "item_id"; "status"].

Definition is_user (d : dict) : bool :=
  bool_decide (NoDup (keys d)) && has_fields user_fields d.
Definition is_item (d : dict) : bool :=
  bool_decide (NoDup (keys d)) && has_fields item_fields d && has_str "name" d.
Definition is_claim (d : dict) : bool :=
  bool_decide (NoDup (keys d)) && has_fields claim_fields d.

(** Every record in memory is a record of its collection. *)
Definition well_formed (w : World) : bool :=
  forallb is_user (users w) && forallb is_item (items w) && forallb is_claim (claims w).

(** [s] has [k] as a substring. *)
Definition substring (k s : string) : Prop :=
  exists pre post, s = pre +:+ k +:+ post.

(** ** Vocabulary of the properties *)

Definition users_path : string := path_join DATA_DIR "users.json".
Definition items_path : string := path_join DATA_DIR "items.json".
Definition claims_path : string := path_join DATA_DIR "claims.json".

(** The world after [save_all]. *)
Definition saved (w : World) : World :=
  set_disk
    (<[claims_path := Json.dumps (claims w)]>
       (<[items_path := Json.dumps (items w)]>
          (<[users_path := Json.dumps (users w)]> (disk w)))) w.

(** Each of the three files holds the encoding of the list in memory. *)
Definition persisted (w : World) : Prop :=
  disk w !! users_path = Some (Json.dumps (users w)) /\
  disk w !! items_path = Some (Json.dumps (items w)) /\
  disk w !! claims_path = Some (Json.dumps (claims w)).

(** What approving a claim on the item [b] does to one item. *)
Definition claimed_by (b : value) (item : dict) : dict :=
  if bool_decide (get "item_id" item = Some b)
  then setitem "status" (VStr "claimed") item
  else item.

(** The user record carries these credentials. *)
Definition credentials (email password : value) (user : dict) : Prop :=
  get "email" user = Some email /\ get "password" user = Some password.

(** The item's name, lower-cased, contains the keyword, lower-cased. *)
Definition name_contains (keyword : string) (item : dict) : Prop :=
  exists s, get "name" item = Some (VStr s) /\ substring (lower keyword) (lower s).

(** ** Some worlds *)

Definition world_two_users : World :=
  mkWorld
    [default_admin;
     [("id", VInt 2); ("name", VStr "Ann"); ("email", VStr "ann@dlfs.com");
      ("password", VStr "pw"); ("role", VStr "user")]]
    [] [] ∅.

Definition world_three_items : World :=
  mkWorld [default_admin]
    [ReportedItem.__dict__
       (ReportedItem.__init__ 1234 (VStr "Blue Wallet") (VStr "leather") (VStr "Library")
          (VStr "lost"));
     ReportedItem.__dict__
       (ReportedItem.__init__ 4321 (VStr "Red hat") (VStr "wool") (VStr "Gym") (VStr "found"));
     ReportedItem.__dict__
       (ReportedItem.__init__ 1234 (VStr "wallet chain") (VStr "steel") (VStr "Gym")
          (VStr "found"))]
    [Claim.__dict__ (Claim.__init__ 5678 (VInt 2) (VStr "ITEM-1234"));
     Claim.__dict__ (Claim.__init__ 5678 (VInt 3) (VStr "ITEM-4321"))]
    ∅.

Definition world_collision : World :=
  mkWorld [default_admin]
    [ReportedItem.__dict__
       (ReportedItem.__init__ 1234 (VStr "Blue Wallet") (VStr "leather") (VStr "Library")
          (VStr "lost"));
     ReportedItem.__dict__
       (ReportedItem.__init__ 4321 (VStr "Red hat") (VStr "wool") (VStr "Gym") (VStr "found"));
     ReportedItem.__dict__
       (ReportedItem.__init__ 1234 (VStr "wallet chain") (VStr "steel") (VStr "Gym")
          (VStr "found"))]
    [Claim.__dict__ (Claim.__init__ 1111 (VInt 4) (VStr "ITEM-4321"));
     Claim.__dict__ (Claim.__init__ 5678 (VInt 2) (VStr "ITEM-1234"));
     Claim.__dict__ (Claim.__init__ 5678 (VInt 3) (VStr "ITEM-4321"))]
    ∅.


(** ** Vocabulary of further properties *)

(** What the start of the module writes into a file it creates. *)
Definition initial_content (file : string) : string :=
  Json.dumps (if String.eqb file "users.json" then [default_admin] else []).

(** The world after [create_missing file]. *)
Definition ensure_file (file : string) (w : World) : World :=
  match disk w !! path_join DATA_DIR file with
  | Some _ => w
  | None => set_disk (<[path_join DATA_DIR file := initial_content file]> (disk w)) w
  end.

(** The list that [load_data] makes of the text of a file, when the text
    is one of the model: its records, or no record when the decoder
    refuses it. *)
Definition decode (text : string) : option (list dict) :=
  match Json.loads text with
  | Json.Decoded data => Some data
  | Json.JSONDecodeError => Some []
  | Json.Other => None
  end.


(** [login] passes over the record: its email differs from the one given,
    or its email is the one given and its password differs. *)
Definition passed_over (email password : value) (user : dict) : Prop :=
  exists e, get "email" user = Some e /\
    (e <> email \/ exists p, get "password" user = Some p /\ p <> password).

(** [d'] is [d] but for its status. *)
Definition same_but_status (d d' : dict) : Prop :=
  forall k, k <> "status" -> get k d' = get k d.

(** ** The console and the menus

    The session layer of [dlfs.py]: [main], [user_menu] and [admin_menu] on
    the one [controller] of the module. The console is the world of the
    store, the lines still to be read by [input], the chunks written to the
    standard output, and the numbers [random.randint] is going to draw.
    A [while True] loop runs on fuel: [OutOfFuel] stands for fuel that ran
    out, which is no outcome of the program. *)

Record Console : Type := mkConsole {
  world : World;
  stdin : list string;
  stdout : list string;
  randint : nat -> Z;
  drawn : nat
}.

Definition set_world (w : World) (c : Console) : Console :=
  mkConsole w (stdin c) (stdout c) (randint c) (drawn c).
Definition set_stdin (ls : list string) (c : Console) : Console :=
  mkConsole (world c) ls (stdout c) (randint c) (drawn c).
Definition write (s : string) (c : Console) : Console :=
  mkConsole (world c) (stdin c) (stdout c ++ [s]) (randint c) (drawn c).

Inductive outcome (A : Type) : Type :=
| Done (a : A)
| Raised (e : exn)
| EOFError
| OutOfFuel.
Arguments Done {A} a.
Arguments Raised {A} e.
Arguments EOFError {A}.
Arguments OutOfFuel {A}.

Definition IO (A : Type) : Type := Console -> outcome A * Console.

#[global] Instance IO_ret : MRet IO := fun A a c => (Done a, c).
#[global] Instance IO_bind : MBind IO := fun A B k m c =>
  match m c with
  | (Done a, c') => k a c'
  | (Raised e, c') => (Raised e, c')
  | (EOFError, c') => (EOFError, c')
  | (OutOfFuel, c') => (OutOfFuel, c')
  end.

(** A method of the controller, run on the world of the console. *)
Definition call {A} (m : M A) : IO A := fun c =>
  match m (world c) with
  | (Ok a, w) => (Done a, set_world w c)
  | (Raise e, w) => (Raised e, set_world w c)
  end.

Definition io_lift {A} (r : result A) : IO A := fun c =>
  match r with
  | Ok a => (Done a, c)
  | Raise e => (Raised e, c)
  end.

Definition NL : string := String "010"%char EmptyString.

(** [print(s)]: the text and a line break. *)
Definition print (s : string) : IO unit := fun c => (Done tt, write (s +:+ NL) c).

(** [input(prompt)]: the prompt is written, then a line is read; at the end
    of the input it raises [EOFError]. *)
Definition input (prompt : string) : IO string := fun c =>
  match stdin c with
  | [] => (EOFError, write prompt c)
  | line :: rest => (Done line, set_stdin rest (write prompt c))
  end.

(** The next number of [random.randint(1000, 9999)]. *)
Definition draw : IO Z := fun c =>
  (Done (randint c (drawn c)),
   mkConsole (world c) (stdin c) (stdout c) (randint c) (S (drawn c))).

(** [while True: body], where [body] returns false on [break]. *)
Fixpoint while_true (fuel : nat) (body : IO bool) : IO unit :=
  match fuel with
  | O => fun c => (OutOfFuel, c)
  | S fuel' => continue ← body; if continue : bool then while_true fuel' body else mret tt
  end.

(** [str(v)], as an f-string formats a field. *)
Definition str (v : value) : string :=
  match v with
  | VInt n => str_of_int n
  | VStr s => s
  end.

(** The line of an item in the listings that show its type. *)
Definition item_line (item : dict) : result string :=
  a ← getitem "item_id" item;
  b ← getitem "name" item;
  c ← getitem "location" item;
  d ← getitem "item_type" item;
  e ← getitem "status" item;
  mret ("Item ID: " +:+ str a +:+ ", Name: " +:+ str b +:+ ", Location: " +:+ str c
        +:+ ", Type: " +:+ str d +:+ ", Status: " +:+ str e).

(** The line of an item in the listing by type. *)
Definition item_line_no_type (item : dict) : result string :=
  a ← getitem "item_id" item;
  b ← getitem "name" item;
  c ← getitem "location" item;
  e ← getitem "status" item;
  mret ("Item ID: " +:+ str a +:+ ", Name: " +:+ str b +:+ ", Location: " +:+ str c
        +:+ ", Status: " +:+ str e).

(** [for item in its: print(line(item))]. *)
Fixpoint print_each (line : dict -> result string) (its : list dict) : IO unit :=
  match its with
  | [] => mret tt
  | item :: rest => s ← io_lift (line item); print s;; print_each line rest
  end.

(** [[item for item in its if test(item)]]. *)
Fixpoint comprehension (test : dict -> result bool) (its : list dict)
  : result (list dict) :=
  match its with
  | [] => mret []
  | item :: rest =>
      b ← test item;
      found ← comprehension test rest;
      mret (if (b : bool) then item :: found else found)
  end.

(** [location.lower() in item['location'].lower()]. *)
Definition location_matches (location : string) (item : dict) : result bool :=
  l ← getitem "location" item;
  match l with
  | VStr s => mret (str_in (lower location) (lower s))
  | VInt _ => Raise (AttributeError "lower")
  end.

(** [item['item_type'] == item_type]. *)
Definition type_is (item_type : string) (item : dict) : result bool :=
  t ← getitem "item_type" item;
  mret (py_eq t (VStr item_type)).

(** [str.capitalize] on a word of ASCII letters: here "lost" or "found". *)
Definition capitalize (s : string) : string :=
  match s with
  | EmptyString => EmptyString
  | String c r =>
      let n := code c in
      String (if ((97 <=? n) && (n <=? 122))%N then ascii_of_N (n - 32) else c) (lower r)
  end.

(** [if results: header; for ...: print(...) else: print(nothing)]. *)
Definition print_results (header nothing : string) (line : dict -> result string)
    (results : list dict) : IO unit :=
  match results with
  | _ :: _ => print header;; print_each line results
  | [] => print nothing
  end.

(** The lines of a menu. *)
Fixpoint print_all (lines : list string) : IO unit :=
  match lines with
  | [] => mret tt
  | l :: rest => print l;; print_all rest
  end.

(** Options 1 and 2 of the user menu. *)
Definition report (user : dict) (item_type reported : string) : IO unit :=
  name ← input "Item name: ";
  desc ← input "Description: ";
  loc ← input "Location: ";
  uid ← io_lift (getitem "id" user);
  r ← draw;
  item_id ← call (report_item r (VStr name) (VStr desc) (VStr loc) (VStr item_type) uid);
  print (reported +:+ " item reported. Item ID: " +:+ item_id).

(** Option 3 of the user menu. *)
Definition search_menu : IO unit :=
  print_all [NL +:+ "--- Search Menu ---"; "1. View All Items"; "2. Search by Keyword";
             "3. Search by Location"; "4. Search by Item Type"];;
  sub_choice ← input "Choose an option: ";
  if String.eqb sub_choice "1" then
    its ← call (gets items);
    print_results (NL +:+ "--- All Items ---") "No items in the system." item_line its
  else if String.eqb sub_choice "2" then
    keyword ← input "Enter keyword: ";
    results ← call (search_items keyword);
    print_results (NL +:+ "--- Search Results ---") "No items found with that keyword."
      item_line results
  else if String.eqb sub_choice "3" then
    location ← input "Enter location: ";
    its ← call (gets items);
    results ← io_lift (comprehension (location_matches location) its);
    print_results (NL +:+ "--- Items Found in Location ---")
      "No items found in that location." item_line results
  else if String.eqb sub_choice "4" then
    print "Choose type: 1 for Lost, 2 for Found";;
    t ← input "Enter choice: ";
    let item_type := if String.eqb t "1" then "lost" else "found" in
    its ← call (gets items);
    results ← io_lift (comprehension (type_is item_type) its);
    print_results (NL +:+ "--- " +:+ capitalize item_type +:+ " Items ---")
      ("No " +:+ item_type +:+ " items found.") item_line_no_type results
  else mret tt.

(** One turn of the loop of [user_menu]; false on logout. *)
Definition user_menu_body (user : dict) : IO bool :=
  print_all [NL +:+ "--- User Menu ---"; "1. Report Lost Item"; "2. Report Found Item";
             "3. Search Items"; "4. Claim an Item"; "5. Logout"];;
  choice ← input "Choose an option: ";
  if String.eqb choice "1" then report user "lost" "Lost";; mret true
  else if String.eqb choice "2" then report user "found" "Found";; mret true
  else if String.eqb choice "3" then search_menu;; mret true
  else if String.eqb choice "4" then
    item_id ← input "Enter Item ID to claim: ";
    uid ← io_lift (getitem "id" user);
    r ← draw;
    claim_id ← call (claim_item r uid (VStr item_id));
    print ("Claim submitted. Claim ID: " +:+ claim_id);;
    mret true
  else if String.eqb choice "5" then mret false
  else mret true.

Definition user_menu (fuel : nat) (user : dict) : IO unit :=
  while_true fuel (user_menu_body user).

(** One turn of the loop of [admin_menu]; false on logout. *)
Definition admin_menu_body (admin : dict) : IO bool :=
  print_all [NL +:+ "--- Admin Menu ---"; "1. Approve Claim"; "2. Logout"];;
  choice ← input "Choose an option: ";
  if String.eqb choice "1" then
    claim_id ← input "Enter Claim ID: ";
    approved ← call (approve_claim (VStr claim_id));
    (if (approved : bool) then print "Claim approved." else print "Claim not found.");;
    mret true
  else if String.eqb choice "2" then mret false
  else mret true.

Definition admin_menu (fuel : nat) (admin : dict) : IO unit :=
  while_true fuel (admin_menu_body admin).

(** One turn of the loop of [main]; false on exit. [if user:] holds for a
    dict with a key, not for [None]. The menus it enters run on the fuel
    given. *)
Definition main_body (fuel : nat) : IO bool :=
  print_all [NL +:+ "--- DLFS Main Menu ---"; "1. Login"; "2. Exit"];;
  choice ← input "Choose an option: ";
  if String.eqb choice "1" then
    email ← input "Email: ";
    password ← input "Password: ";
    user ← call (login (VStr email) (VStr password));
    match user with
    | Some (kv :: d) =>
        role ← io_lift (getitem "role" (kv :: d));
        (if py_eq role (VStr "admin") then admin_menu fuel (kv :: d)
         else user_menu fuel (kv :: d));;
        mret true
    | _ => print "Invalid credentials.";; mret true
    end
  else if String.eqb choice "2" then mret false
  else mret true.

Definition main (fuel : nat) : IO unit := while_true fuel (main_body fuel).

(** A whole session: more fuel than there are lines to read. *)
Definition session (c : Console) : outcome unit * Console :=
  main (S (length (stdin c))) c.

(** What a computation does to the input: [mono] never lengthens it,
    [consumes] shortens it when the computation returns; [safe] never runs
    out of fuel, [safe_below n] when fewer than [n] lines are left. *)
Definition mono {A} (m : IO A) : Prop :=
  forall c, (length (stdin (snd (m c))) <= length (stdin c))%nat.
Definition consumes {A} (m : IO A) : Prop :=
  forall c a, fst (m c) = Done a -> (length (stdin (snd (m c))) < length (stdin c))%nat.
Definition safe {A} (m : IO A) : Prop :=
  forall c, fst (m c) <> OutOfFuel.
Definition safe_below (n : nat) {A} (m : IO A) : Prop :=
  forall c, (length (stdin c) < n)%nat -> fst (m c) <> OutOfFuel.

(** Two computations do the same when fewer than [n] lines are left. *)
Definition agree_below (n : nat) {A} (m1 m2 : IO A) : Prop :=
  forall c, (length (stdin c) < n)%nat -> m1 c = m2 c.

(** The worlds before and after a computation are related by [R]. *)
Definition keeps (R : World -> World -> Prop) {A} (m : IO A) : Prop :=
  forall c, R (world c) (world (snd (m c))).

(** [w'] is [w] with records added at the end and nothing else changed: the
    items added are reported, the claims added are pending and satisfy
    [who]. *)
Definition appended (who : dict -> Prop) (w w' : World) : Prop :=
  users w' = users w /\
  (exists new, items w' = items w ++ new /\
     Forall (fun d => get "status" d = Some (VStr "reported")) new) /\
  (exists new, claims w' = claims w ++ new /\
     Forall (fun d => get "status" d = Some (VStr "pending") /\ who d) new).

(** [w'] is [w] but for the statuses of its claims and items. *)
Definition status_changed (w w' : World) : Prop :=
  users w' = users w /\
  Forall2 same_but_status (claims w) (claims w') /\
  Forall2 same_but_status (items w) (items w').

(** No user record has the role of an admin. *)
Definition no_admin (w : World) : Prop :=
  Forall (fun u => get "role" u <> Some (VStr "admin")) (users w).

(** Without an admin among the users, [w'] is [w] with records added at
    the end. *)
Definition added_unless_admin (w w' : World) : Prop :=
  no_admin w -> appended (fun _ => True) w w'.

(** The lines of the menus, as [print] writes them. *)
Definition user_menu_lines : list string :=
  map (fun l => l +:+ NL)
    [NL +:+ "--- User Menu ---"; "1. Report Lost Item"; "2. Report Found Item";
     "3. Search Items"; "4. Claim an Item"; "5. Logout"].
Definition admin_menu_lines : list string :=
  map (fun l => l +:+ NL) [NL +:+ "--- Admin Menu ---"; "1. Approve Claim"; "2. Logout"].

(** ** Lemmas on values, dicts and strs *)

Section PyFacts.

Lemma py_eq_true (a b : value) : py_eq a b = true <-> a = b.
Proof.
  destruct a as [m|s], b as [n|t]; simpl; split; try discriminate.
  - intros H. apply Z.eqb_eq in H. now subst.
  - intros [= ->]. apply Z.eqb_refl.
  - intros H. apply String.eqb_eq in H. now subst.
  - intros [= ->]. apply String.eqb_refl.
Qed.

Lemma py_eq_false (a b : value) : py_eq a b = false <-> a <> b.
Proof.
  rewrite <- py_eq_true. destruct (py_eq a b); split; congruence.
Qed.

Lemma get_setitem_eq (k : string) (v : value) (d : dict) :
  get k (setitem k v d) = Some v.
Proof.
  induction d as [|[k' v'] d IH]; simpl.
  - now rewrite String.eqb_refl.
  - destruct (String.eqb k' k) eqn:E; simpl; now rewrite E.
Qed.

Lemma get_setitem_ne (k k' : string) (v : value) (d : dict) :
  k <> k' -> get k' (setitem k v d) = get k' d.
Proof.
  intros Hne. induction d as [|[k0 v0] d IH]; simpl.
  - destruct (String.eqb k k') eqn:E; [apply String.eqb_eq in E; contradiction|easy].
  - destruct (String.eqb k0 k) eqn:E; simpl.
    + apply String.eqb_eq in E. subst k0.
      destruct (String.eqb k k') eqn:E'; [apply String.eqb_eq in E'; contradiction|easy].
    + now rewrite IH.
Qed.

Lemma setitem_fresh (k : string) (v : value) (d : dict) :
  k ∉ keys d -> setitem k v d = d ++ [(k, v)].
Proof.
  induction d as [|[k' v'] d IH]; simpl; intros Hk; [easy|].
  apply not_elem_of_cons in Hk as [Hne Hk].
  destruct (String.eqb k' k) eqn:E.
  - apply String.eqb_eq in E. congruence.
  - now rewrite IH.
Qed.

Lemma getitem_ok (k : string) (d : dict) :
  has_key k d = true -> exists v, get k d = Some v /\ getitem k d = Ok v.
Proof.
  unfold has_key, getitem. destruct (get k d) as [v|]; [eauto|discriminate].
Qed.

Lemma has_fields_key (ks : list string) (k : string) (d : dict) :
  has_fields ks d = true -> In k ks -> has_key k d = true.
Proof.
  unfold has_fields. rewrite forallb_forall. auto.
Qed.

Lemma append_assoc (a b c : string) : (a +:+ b) +:+ c = a +:+ b +:+ c.
Proof. induction a as [|x a IH]; simpl; [easy|now f_equal]. Qed.

Lemma startswith_spec (p s : string) :
  startswith p s = true <-> exists post, s = p +:+ post.
Proof.
  revert s. induction p as [|a p IH]; intros s; simpl.
  - split; [eauto|easy].
  - destruct s as [|b s].
    + split; [discriminate|]. intros [post H]. discriminate.
    + rewrite andb_true_iff, IH. split.
      * intros [Hab [post ->]]. apply Ascii.eqb_eq in Hab. subst. eauto.
      * intros [post [= -> ->]]. split; [apply Ascii.eqb_refl|eauto].
Qed.

Lemma str_in_spec (k s : string) : str_in k s = true <-> substring k s.
Proof.
  unfold substring. induction s as [|c s IH].
  - simpl. rewrite orb_false_r, startswith_spec. split.
    + intros [post H]. exists EmptyString, post. exact H.
    + intros [pre [post H]]. destruct pre; [eauto|discriminate].
  - change (str_in k (String c s))
      with (startswith k (String c s) || str_in k s).
    rewrite orb_true_iff, IH, startswith_spec. split.
    + intros [[post H]|[pre [post H]]].
      * exists EmptyString, post. exact H.
      * exists (String c pre), post. simpl. now rewrite H.
    + intros [pre [post H]]. destruct pre as [|c' pre].
      * left. eauto.
      * right. injection H as -> ->. eauto.
Qed.

Lemma str_in_empty (s : string) : str_in EmptyString s = true.
Proof. destruct s; reflexivity. Qed.

End PyFacts.

(** ** The json module: decoding an encoding *)

Module JsonFacts.
Import Json.

(** *** Unfolding the scanner by one character *)

Lemma lex_cons (c : ascii) (r : string) :
  lex (String c r) =
  let n := code c in
  if is_ws c then lex r
  else if (n =? 91)%N then cons LBracket <$> lex r
  else if (n =? 93)%N then cons RBracket <$> lex r
  else if (n =? 123)%N then cons LBrace <$> lex r
  else if (n =? 125)%N then cons RBrace <$> lex r
  else if (n =? 58)%N then cons Colon <$> lex r
  else if (n =? 44)%N then cons Comma <$> lex r
  else if (n =? 34)%N then
    match lex_string r with
    | Some (str, ts) => Some (TString str :: ts)
    | None => None
    end
  else if (n =? 48)%N then
    match r with
    | EmptyString => Some [TInt 0]
    | String c' r' => cons (TInt 0) <$> delimiter c' (lex r')
    end
  else if is_digit c then
    match lex_digits r with
    | Some (ds, ts) => number_token false (String c ds) ts
    | None => None
    end
  else if (n =? 45)%N then
    match r with
    | String d r' =>
        if (code d =? 48)%N then
          match r' with
          | EmptyString => Some [TInt 0]
          | String c' r'' => cons (TInt 0) <$> delimiter c' (lex r'')
          end
        else if is_digit d then
          match lex_digits r' with
          | Some (ds, ts) => number_token true (String d ds) ts
          | None => None
          end
        else None
    | EmptyString => None
    end
  else None.
Proof. reflexivity. Qed.

Lemma lex_digits_cons (c : ascii) (r : string) :
  lex_digits (String c r) =
  if is_digit c then
    match lex_digits r with
    | Some (ds, ts) => Some (String c ds, ts)
    | None => None
    end
  else
    match delimiter c (lex r) with
    | Some ts => Some (EmptyString, ts)
    | None => None
    end.
Proof. reflexivity. Qed.

Lemma lex_string_quote (r : string) :
  lex_string (String quote r) =
  match lex r with
  | Some ts => Some (EmptyString, ts)
  | None => None
  end.
Proof. reflexivity. Qed.

Lemma lex_string_plain (c : ascii) (r : string) :
  (code c =? 34)%N = false -> (code c =? 92)%N = false -> (code c <? 32)%N = false ->
  lex_string (String c r) =
  match lex_string r with
  | Some (str, ts) => Some (String c str, ts)
  | None => None
  end.
Proof.
  intros H1 H2 H3. change (lex_string (String c r)) with
    (if (code c =? 34)%N then
       match lex r with
       | Some ts => Some (EmptyString, ts)
       | None => None
       end
     else if (code c =? 92)%N then
       match r with
       | String e r' =>
           if (code e =? 117)%N then
             match r' with
             | String h1 (String h2 (String h3 (String h4 r''))) =>
                 match unicode_escape h1 h2 h3 h4, lex_string r'' with
                 | Some u, Some (str, ts) => Some (String u str, ts)
                 | _, _ => None
                 end
             | _ => None
             end
           else
             match simple_escape e, lex_string r' with
             | Some u, Some (str, ts) => Some (String u str, ts)
             | _, _ => None
             end
       | EmptyString => None
       end
     else if (code c <? 32)%N then None
     else
       match lex_string r with
       | Some (str, ts) => Some (String c str, ts)
       | None => None
       end).
  now rewrite H1, H2, H3.
Qed.

Lemma lex_string_simple (e u : ascii) (r : string) :
  (code e =? 117)%N = false -> simple_escape e = Some u ->
  lex_string (String backslash (String e r)) =
  match lex_string r with
  | Some (str, ts) => Some (String u str, ts)
  | None => None
  end.
Proof.
  intros H1 H2. change (lex_string (String backslash (String e r))) with
    (if (code e =? 117)%N then
       match r with
       | String h1 (String h2 (String h3 (String h4 r''))) =>
           match unicode_escape h1 h2 h3 h4, lex_string r'' with
           | Some u, Some (str, ts) => Some (String u str, ts)
           | _, _ => None
           end
       | _ => None
       end
     else
       match simple_escape e, lex_string r with
       | Some u, Some (str, ts) => Some (String u str, ts)
       | _, _ => None
       end).
  now rewrite H1, H2.
Qed.

Lemma lex_string_unicode (h1 h2 h3 h4 u : ascii) (r : string) :
  unicode_escape h1 h2 h3 h4 = Some u ->
  lex_string
    (String backslash (String "u" (String h1 (String h2 (String h3 (String h4 r)))))) =
  match lex_string r with
  | Some (str, ts) => Some (String u str, ts)
  | None => None
  end.
Proof.
  intros H. change (lex_string
    (String backslash (String "u" (String h1 (String h2 (String h3 (String h4 r)))))))
    with
    (match unicode_escape h1 h2 h3 h4, lex_string r with
     | Some u, Some (str, ts) => Some (String u str, ts)
     | _, _ => None
     end).
  now rewrite H.
Qed.

(** *** Strings *)

Ltac escape_case H :=
  match goal with
  | |- context [escape_char ?c] =>
      let e := eval vm_compute in (escape_char c) in
      change (escape_char c) with e
  end;
  cbn [String.append];
  match goal with
  | |- _ = Some (String ?c _, _) =>
      first
        [ rewrite lex_string_plain by reflexivity
        | rewrite (lex_string_simple _ c) by reflexivity
        | rewrite (lex_string_unicode _ _ _ _ c) by reflexivity ]
  end;
  rewrite H; reflexivity.

Lemma lex_escape_char (c : ascii) (tail str : string) (ts : list token) :
  lex_string tail = Some (str, ts) ->
  lex_string (escape_char c +:+ tail) = Some (String c str, ts).
Proof.
  intros H. destruct c as [[] [] [] [] [] [] [] []]; escape_case H.
Qed.

Lemma lex_escape (s rest : string) (ts : list token) :
  lex rest = Some ts ->
  lex_string (escape s +:+ String quote rest) = Some (s, ts).
Proof.
  intros H. induction s as [|c s IH]; cbn [escape String.append].
  - now rewrite lex_string_quote, H.
  - rewrite append_assoc. now apply lex_escape_char.
Qed.

Lemma lex_encode_string (s rest : string) (ts : list token) :
  lex rest = Some ts ->
  lex (encode_string s +:+ rest) = Some (TString s :: ts).
Proof.
  intros H. unfold encode_string. cbn [String.append].
  rewrite lex_cons. change (is_ws quote) with false. cbn [code quote].
  rewrite append_assoc. cbn [String.append].
  change (N_of_ascii quote) with 34%N. simpl.
  now rewrite (lex_escape s rest ts H).
Qed.

(** *** Numbers *)

Lemma string_of_uint_digits (u : Decimal.uint) :
  all_digits (NilEmpty.string_of_uint u) = true.
Proof. induction u; simpl; auto. Qed.

Lemma delimiter_not_digit (c : ascii) (k : option (list token)) (ts : list token) :
  delimiter c k = Some ts -> is_digit c = false.
Proof.
  intros H. destruct c as [[] [] [] [] [] [] [] []];
    try reflexivity; discriminate H.
Qed.

Lemma delimiter_lex (c : ascii) (r : string) (ts : list token) :
  delimiter c (lex r) = Some ts -> lex (String c r) = Some ts.
Proof.
  intros H. rewrite lex_cons.
  destruct c as [[] [] [] [] [] [] [] []];
    try discriminate H; exact H.
Qed.

Lemma lex_digits_run (ds : string) (c : ascii) (r : string) (ts : list token) :
  all_digits ds = true ->
  delimiter c (lex r) = Some ts ->
  lex_digits (ds +:+ String c r) = Some (ds, ts).
Proof.
  intros Hds Hc. induction ds as [|d ds IH]; cbn [String.append].
  - rewrite lex_digits_cons, (delimiter_not_digit _ _ _ Hc). now rewrite Hc.
  - simpl in Hds. apply andb_true_iff in Hds as [Hd Hds].
    rewrite lex_digits_cons, Hd. now rewrite (IH Hds).
Qed.

(** The decimal digits of a positive number start with a digit other
    than 0. *)
Lemma to_uint_head (p : positive) :
  match Pos.to_uint p with
  | Decimal.Nil | Decimal.D0 _ => False
  | _ => True
  end.
Proof.
  pose proof (DecimalPos.Unsigned.to_uint_nonnil p) as Hnil.
  pose proof (DecimalPos.Unsigned.to_uint_nonzero p) as Hzero.
  pose proof (DecimalPos.Unsigned.to_of (Pos.to_uint p)) as Hnorm.
  rewrite DecimalPos.Unsigned.of_to in Hnorm. simpl in Hnorm.
  destruct (Pos.to_uint p) as [|u| | | | | | | | |]; try exact I; try congruence.
  rewrite unorm_D0 in Hnorm.
  destruct (Decimal.uint_eq_dec u Decimal.Nil) as [->|Hu].
  - now apply Hzero.
  - pose proof (nb_digits_unorm u Hu) as Hle. rewrite <- Hnorm in Hle.
    simpl in Hle. lia.
Qed.

Lemma int_of_digits_pos (neg : bool) (p : positive) :
  int_of_digits neg (str_of_N (Npos p)) = Some (if neg then Zneg p else Zpos p).
Proof.
  unfold int_of_digits, str_of_N. rewrite NilEmpty.usu.
  rewrite DecimalN.Unsigned.of_to. now destruct neg.
Qed.

Lemma lex_digits_pos (p : positive) (c : ascii) (r : string) (ts : list token) :
  delimiter c (lex r) = Some ts ->
  exists d ds,
    str_of_N (Npos p) = String d ds /\
    is_digit d = true /\ (code d =? 48)%N = false /\
    lex_digits (ds +:+ String c r) = Some (ds, ts).
Proof.
  intros Hc. unfold str_of_N. simpl N.to_uint.
  pose proof (to_uint_head p) as Hhead.
  pose proof (string_of_uint_digits (Pos.to_uint p)) as Hdigits.
  destruct (Pos.to_uint p) as [|u|u|u|u|u|u|u|u|u|u]; try contradiction;
    simpl in Hdigits |- *; (eexists _, _; split; [reflexivity|]);
    (split; [reflexivity|]); (split; [reflexivity|]);
    now apply lex_digits_run.
Qed.

Lemma lex_int (n : Z) (c : ascii) (r : string) (ts : list token) :
  delimiter c (lex r) = Some ts ->
  lex (str_of_int n +:+ String c r) = Some (TInt n :: ts).
Proof.
  intros Hc. destruct n as [|p|p]; unfold str_of_int.
  - change (str_of_N (Z.to_N 0)) with "0". cbn [String.append].
    rewrite lex_cons. simpl. now rewrite Hc.
  - change (Z.to_N (Z.pos p)) with (Npos p).
    destruct (lex_digits_pos p c r ts Hc) as (d & ds & Hs & Hd & H0 & Hrun).
    pose proof (int_of_digits_pos false p) as Hint. rewrite Hs in Hint |- *.
    cbn [String.append]. rewrite lex_cons. cbv zeta.
    assert (is_ws d = false /\ (code d =? 91)%N = false /\ (code d =? 93)%N = false /\
            (code d =? 123)%N = false /\ (code d =? 125)%N = false /\
            (code d =? 58)%N = false /\ (code d =? 44)%N = false /\
            (code d =? 34)%N = false) as (E1 & E2 & E3 & E4 & E5 & E6 & E7 & E8).
    { clear -Hd. destruct d as [[] [] [] [] [] [] [] []];
        try discriminate Hd; repeat split. }
    rewrite E1, E2, E3, E4, E5, E6, E7, E8, H0, Hd, Hrun.
    unfold number_token. now rewrite Hint.
  - destruct (lex_digits_pos p c r ts Hc) as (d & ds & Hs & Hd & H0 & Hrun).
    pose proof (int_of_digits_pos true p) as Hint. rewrite Hs in Hint |- *.
    cbn [String.append]. rewrite lex_cons. simpl.
    rewrite H0, Hd, Hrun. unfold number_token. now rewrite Hint.
Qed.

(** *** The layout of [dumps] *)

Lemma lex_space (s : string) : lex (String " " s) = lex s.
Proof. reflexivity. Qed.

Lemma lex_LF (s : string) : lex (String LF s) = lex s.
Proof. reflexivity. Qed.

Lemma lex_spaces (n : nat) (s : string) : lex (spaces n +:+ s) = lex s.
Proof.
  induction n as [|n IH]; cbn [spaces String.append]; [reflexivity|].
  now rewrite lex_space.
Qed.

Lemma lex_newline_indent (level : nat) (s : string) :
  lex (newline_indent level +:+ s) = lex s.
Proof.
  unfold newline_indent. cbn [String.append]. rewrite lex_LF. apply lex_spaces.
Qed.

Lemma lex_encode_value (v : value) (c : ascii) (r : string) (ts : list token) :
  delimiter c (lex r) = Some ts ->
  lex (encode_value v +:+ String c r) = Some (token_of_value v :: ts).
Proof.
  intros Hc. destruct v as [n|s]; cbn [encode_value token_of_value].
  - now apply lex_int.
  - apply lex_encode_string. now apply delimiter_lex.
Qed.

Lemma lex_encode_member (kv : string * value) (c : ascii) (r : string)
    (ts : list token) :
  delimiter c (lex r) = Some ts ->
  lex (encode_member kv +:+ String c r) =
  Some (TString (fst kv) :: Colon :: token_of_value (snd kv) :: ts).
Proof.
  intros Hc. unfold encode_member. rewrite !append_assoc.
  apply lex_encode_string. cbn [String.append].
  change (lex (String ":" (String " " (encode_value (snd kv) +:+ String c r))))
    with (cons Colon <$> lex (encode_value (snd kv) +:+ String c r)).
  now rewrite (lex_encode_value _ _ _ _ Hc).
Qed.

Lemma lex_encode_members (kv : string * value) (rest : dict) (r : string)
    (ts : list token) :
  lex r = Some ts ->
  lex (encode_members kv rest +:+ String LF r) = Some (tokens_members kv rest ++ ts).
Proof.
  intros Hr. revert kv.
  induction rest as [|kv' rest IH]; intros kv;
    cbn [encode_members tokens_members].
  - now apply lex_encode_member.
  - rewrite !append_assoc. cbn [String.append].
    rewrite (lex_encode_member kv ","%char _
               (Comma :: tokens_members kv' rest ++ ts)); [reflexivity|].
    change (delimiter ","%char ?k) with (cons Comma <$> k).
    now rewrite lex_newline_indent, IH.
Qed.

Lemma lex_encode_dict (d : dict) (s : string) (ts : list token) :
  lex s = Some ts ->
  lex (encode_dict d +:+ s) = Some (tokens_dict d ++ ts).
Proof.
  intros Hs. destruct d as [|kv rest]; cbn [encode_dict tokens_dict].
  - cbn [String.append].
    change (lex (String "{" (String "}" s))) with
      (cons LBrace <$> (cons RBrace <$> lex s)).
    now rewrite Hs.
  - rewrite !append_assoc. cbn [String.append].
    change (lex (String "{" ?r)) with (cons LBrace <$> lex r).
    rewrite lex_newline_indent. unfold newline_indent at 1. cbn [String.append].
    rewrite (lex_encode_members kv rest _ (RBrace :: ts)).
    + simpl. now rewrite <- app_assoc.
    + rewrite lex_spaces. cbn [String.append].
      change (lex (String "}" s)) with (cons RBrace <$> lex s).
      now rewrite Hs.
Qed.

Lemma lex_encode_elements (d : dict) (rest : list dict) (s : string)
    (ts : list token) :
  lex s = Some ts ->
  lex (encode_elements d rest +:+ s) = Some (tokens_elements d rest ++ ts).
Proof.
  intros Hs. revert d.
  induction rest as [|d' rest IH]; intros d;
    cbn [encode_elements tokens_elements].
  - now apply lex_encode_dict.
  - rewrite !append_assoc. cbn [String.append].
    rewrite (lex_encode_dict d _ (Comma :: tokens_elements d' rest ++ ts)).
    + now rewrite <- app_assoc.
    + change (lex (String "," ?r)) with (cons Comma <$> lex r).
      now rewrite lex_newline_indent, IH.
Qed.

Lemma lex_dumps (data : list dict) : lex (dumps data) = Some (tokens data).
Proof.
  destruct data as [|d rest]; [reflexivity|].
  unfold dumps, tokens. cbn [String.append].
  change (lex (String "[" ?r)) with (cons LBracket <$> lex r).
  rewrite lex_newline_indent.
  now rewrite (lex_encode_elements d rest _ [RBracket]).
Qed.

(** *** The parser on the tokens of [dumps] *)

Lemma value_of_token_of_value (v : value) : value_of_token (token_of_value v) = Some v.
Proof. now destruct v. Qed.

Lemma parse_members_run (rest : dict) :
  forall (d0 : dict) (kv : string * value),
    NoDup (keys (d0 ++ kv :: rest)) ->
    (forall ts,
       parse_members d0 (tokens_members kv rest ++ RBrace :: Comma :: ts) =
       cons (d0 ++ kv :: rest) <$> parse_elements ts) /\
    parse_members d0 (tokens_members kv rest ++ [RBrace; RBracket]) =
    Some [d0 ++ kv :: rest].
Proof.
  induction rest as [|kv' rest IH]; intros d0 [k v] Hnd.
  - assert (setitem k v d0 = d0 ++ [(k, v)]) as Hset.
    { apply setitem_fresh. unfold keys in Hnd. rewrite map_app in Hnd.
      apply NoDup_app in Hnd as (_ & Hd0 & _). intros Hin.
      apply (Hd0 k Hin). simpl. apply list_elem_of_here. }
    split; [intros ts|]; cbn [tokens_members app fst snd parse_members];
      rewrite value_of_token_of_value, Hset; reflexivity.
  - assert (setitem k v d0 = d0 ++ [(k, v)]) as Hset.
    { apply setitem_fresh. unfold keys in Hnd. rewrite map_app in Hnd.
      apply NoDup_app in Hnd as (_ & Hd0 & _). intros Hin.
      apply (Hd0 k Hin). simpl. apply list_elem_of_here. }
    destruct (IH (d0 ++ [(k, v)]) kv') as [IH1 IH2].
    { now rewrite <- app_assoc. }
    rewrite <- app_assoc in IH1, IH2. simpl in IH1, IH2.
    split; [intros ts|]; cbn [tokens_members app fst snd parse_members];
      rewrite value_of_token_of_value, Hset; [apply IH1|apply IH2].
Qed.

Lemma parse_elements_members (kv : string * value) (rest : dict) (more : list token) :
  parse_elements (LBrace :: tokens_members kv rest ++ more) =
  parse_members [] (tokens_members kv rest ++ more).
Proof. destruct rest; reflexivity. Qed.

Lemma parse_dict_run (d : dict) :
  dict_ok d ->
  (forall ts,
     parse_elements (tokens_dict d ++ Comma :: ts) = cons d <$> parse_elements ts) /\
  parse_elements (tokens_dict d ++ [RBracket]) = Some [d].
Proof.
  intros Hd. destruct d as [|kv rest]; [split; reflexivity|].
  destruct (parse_members_run rest [] kv Hd) as [H1 H2].
  unfold tokens_dict. split; [intros ts|]; cbn [app]; rewrite <- app_assoc;
    rewrite parse_elements_members; [apply H1|apply H2].
Qed.

Lemma parse_elements_run (rest : list dict) :
  forall d, Forall dict_ok (d :: rest) ->
    parse_elements (tokens_elements d rest ++ [RBracket]) = Some (d :: rest).
Proof.
  induction rest as [|d' rest IH]; intros d Hok;
    apply Forall_cons in Hok as [Hd Hrest]; cbn [tokens_elements].
  - apply (parse_dict_run d Hd).
  - rewrite <- app_assoc. cbn [app].
    rewrite (proj1 (parse_dict_run d Hd)). now rewrite (IH d' Hrest).
Qed.

(** Decoding the encoding of a sequence of dicts gives the sequence back. *)
Lemma records_dumps (data : list dict) :
  Forall dict_ok data -> records (dumps data) = Some data.
Proof.
  intros Hok. unfold records. rewrite lex_dumps.
  destruct data as [|d rest]; [reflexivity|].
  rewrite <- (parse_elements_run rest d Hok). unfold tokens.
  destruct rest as [|d' rest], d as [|kv [|kv' d]]; reflexivity.
Qed.

Lemma loads_dumps (data : list dict) :
  Forall dict_ok data -> loads (dumps data) = Decoded data.
Proof. intros Hok. unfold loads. now rewrite records_dumps. Qed.

(** A refused text stays refused, whatever follows. *)
Lemma scan_failed (st : list container) (s : string) : scan Failed st s = (Failed, st).
Proof. induction s as [|c s IH]; [reflexivity|exact IH]. Qed.

(** No text of records starts with a character that starts no value. *)
Lemma check_bad_start (c : ascii) (s : string) :
  is_ws c = false -> start_value [] c = (Failed, []) -> check (String c s) = Invalid.
Proof.
  intros Hws Hc. unfold check. cbn [scan step]. rewrite Hws, Hc.
  now rewrite scan_failed.
Qed.

End JsonFacts.

(** ** The record store: what each method computes *)

Section StoreFacts.

Lemma save_all_run (w : World) : save_all w = (Ok tt, saved w).
Proof. reflexivity. Qed.

Lemma paths_distinct :
  users_path <> items_path /\ users_path <> claims_path /\ items_path <> claims_path.
Proof. repeat split; discriminate. Qed.

Lemma saved_persisted (w : World) : persisted (saved w).
Proof.
  destruct paths_distinct as (Hui & Huc & Hic).
  unfold persisted, saved; simpl. repeat split.
  - rewrite lookup_insert_ne by congruence.
    rewrite lookup_insert_ne by congruence.
    apply lookup_insert_eq.
  - rewrite lookup_insert_ne by congruence.
    apply lookup_insert_eq.
  - apply lookup_insert_eq.
Qed.

Lemma report_item_run (r : Z) (name description location item_type user_id : value)
    (w : World) :
  report_item r name description location item_type user_id w =
  (Ok ("ITEM-" +:+ str_of_int r),
   saved (set_items
            (items w ++
               [ReportedItem.__dict__
                  (ReportedItem.__init__ r name description location item_type)]) w)).
Proof. reflexivity. Qed.

Lemma claim_item_run (r : Z) (user_id item_id : value) (w : World) :
  claim_item r user_id item_id w =
  (Ok ("CLM-" +:+ str_of_int r),
   saved (set_claims
            (claims w ++ [Claim.__dict__ (Claim.__init__ r user_id item_id)]) w)).
Proof. reflexivity. Qed.

Lemma claim_items_ok (claim : dict) (b : value) (its : list dict) :
  get "item_id" claim = Some b ->
  forallb (has_key "item_id") its = true ->
  claim_items claim its = (Ok tt, map (claimed_by b) its).
Proof.
  intros Hb. induction its as [|item rest IH]; simpl; [reflexivity|].
  rewrite andb_true_iff. intros [Hk Hrest].
  destruct (getitem_ok _ _ Hk) as (a & Ha & ->).
  unfold getitem at 1. rewrite Hb, (IH Hrest). f_equal. f_equal.
  unfold claimed_by. rewrite Ha.
  destruct (py_eq a b) eqn:E.
  - apply py_eq_true in E. subst. now rewrite bool_decide_eq_true_2.
  - apply py_eq_false in E. rewrite bool_decide_eq_false_2; [easy|congruence].
Qed.

Lemma approve_loop_miss (cid : value) (cs visited : list dict) (w : World) :
  forallb (has_key "claim_id") cs = true ->
  Forall (fun d => get "claim_id" d <> Some cid) cs ->
  approve_loop cid visited cs w = (Ok false, w).
Proof.
  revert visited. induction cs as [|c cs IH]; intros visited; simpl; [reflexivity|].
  rewrite andb_true_iff. intros [Hk Hks] Hne.
  apply Forall_cons in Hne as [Hc Hcs].
  destruct (getitem_ok _ _ Hk) as (a & Ha & Hget).
  unfold mbind, M_bind, lift. rewrite Hget.
  destruct (py_eq a cid) eqn:E.
  - apply py_eq_true in E. congruence.
  - now apply IH.
Qed.

Lemma approve_loop_hit (cid b : value) (pre post visited : list dict) (c : dict)
    (w : World) :
  forallb (has_key "claim_id") pre = true ->
  Forall (fun d => get "claim_id" d <> Some cid) pre ->
  get "claim_id" c = Some cid ->
  get "item_id" c = Some b ->
  forallb (has_key "item_id") (items w) = true ->
  approve_loop cid visited (pre ++ c :: post) w =
  (Ok true,
   saved (set_items (map (claimed_by b) (items w))
            (set_claims
               (visited ++ pre ++ setitem "status" (VStr "approved") c :: post) w))).
Proof.
  intros Hk Hne Hc Hb Hits. revert visited.
  induction pre as [|d pre IH]; intros visited; simpl.
  - unfold mbind, M_bind, lift, getitem. rewrite Hc.
    rewrite (proj2 (py_eq_true cid cid) eq_refl).
    unfold modify, update_items; simpl.
    rewrite (claim_items_ok _ b); [reflexivity| |exact Hits].
    rewrite get_setitem_ne by discriminate. exact Hb.
  - simpl in Hk. apply andb_true_iff in Hk as [Hd Hk].
    apply Forall_cons in Hne as [Hdne Hne].
    destruct (getitem_ok _ _ Hd) as (a & Ha & Hget).
    unfold mbind, M_bind, lift. rewrite Hget.
    destruct (py_eq a cid) eqn:E.
    + apply py_eq_true in E. congruence.
    + rewrite IH by assumption. now rewrite <- app_assoc.
Qed.

(** A list with an element satisfying [p] splits at the first such one. *)
Lemma first_split {A} (p : A -> bool) (l : list A) :
  existsb p l = true ->
  exists pre x post, l = pre ++ x :: post /\ p x = true /\ forallb (fun y => negb (p y)) pre = true.
Proof.
  induction l as [|a l IH]; simpl; [discriminate|].
  destruct (p a) eqn:E.
  - intros _. exists [], a, l. auto.
  - simpl. intros H. destruct (IH H) as (pre & x & post & -> & Hx & Hpre).
    exists (a :: pre), x, post. simpl. rewrite E. auto.
Qed.

Lemma first_claim (claim_id : value) (cs : list dict) :
  (exists c, c ∈ cs /\ get "claim_id" c = Some claim_id) ->
  exists pre c post,
    cs = pre ++ c :: post /\
    Forall (fun d => get "claim_id" d <> Some claim_id) pre /\
    get "claim_id" c = Some claim_id.
Proof.
  intros (c0 & Hin & Hc0).
  destruct (first_split (fun d => bool_decide (get "claim_id" d = Some claim_id)) cs)
    as (pre & c & post & Hsplit & Hc & Hpre).
  { apply existsb_exists. exists c0. split; [now apply list_elem_of_In|].
    now apply bool_decide_eq_true_2. }
  exists pre, c, post. split; [exact Hsplit|]. split.
  - apply Forall_forall. intros d Hd. rewrite forallb_forall in Hpre.
    apply list_elem_of_In, Hpre in Hd. apply negb_true_iff in Hd.
    now apply bool_decide_eq_false_1 in Hd.
  - now apply bool_decide_eq_true_1 in Hc.
Qed.

Lemma claims_have_claim_id (cs : list dict) :
  forallb (has_fields ["claim_id"; "item_id"]) cs = true ->
  forallb (has_key "claim_id") cs = true.
Proof.
  rewrite !forallb_forall. intros H d Hd.
  apply (has_fields_key _ _ _ (H d Hd)). simpl; auto.
Qed.

Lemma approve_claim_miss (claim_id : value) (w : World) :
  forallb (has_fields ["claim_id"; "item_id"]) (claims w) = true ->
  Forall (fun d => get "claim_id" d <> Some claim_id) (claims w) ->
  approve_claim claim_id w = (Ok false, w).
Proof.
  intros Hcs Hnone. unfold approve_claim, gets, mbind, M_bind.
  apply approve_loop_miss; [now apply claims_have_claim_id|exact Hnone].
Qed.

Lemma approve_claim_hit (claim_id : value) (pre post : list dict) (c : dict)
    (w : World) :
  forallb (has_fields ["claim_id"; "item_id"]) (claims w) = true ->
  forallb (has_key "item_id") (items w) = true ->
  claims w = pre ++ c :: post ->
  Forall (fun d => get "claim_id" d <> Some claim_id) pre ->
  get "claim_id" c = Some claim_id ->
  exists b,
    get "item_id" c = Some b /\
    approve_claim claim_id w =
    (Ok true,
     saved (set_items (map (claimed_by b) (items w))
              (set_claims (pre ++ setitem "status" (VStr "approved") c :: post) w))).
Proof.
  intros Hcs Hits Hsplit Hne Hc.
  assert (exists b, get "item_id" c = Some b) as [b Hb].
  { rewrite forallb_forall in Hcs.
    destruct (getitem_ok "item_id" c) as (b & Hb & _); [|eauto].
    apply (has_fields_key ["claim_id"; "item_id"]); [|simpl; auto].
    apply Hcs. rewrite Hsplit. apply in_elt. }
  exists b. split; [exact Hb|].
  apply claims_have_claim_id in Hcs.
  rewrite Hsplit, forallb_app in Hcs. apply andb_true_iff in Hcs as [Hpre _].
  unfold approve_claim, gets, mbind, M_bind. rewrite Hsplit.
  now apply (approve_loop_hit claim_id b pre post [] c w).
Qed.

End StoreFacts.

(** ** Well-formed worlds

    The worlds the program reaches hold records of the data model: the
    start of the program makes such a world, and the three mutating methods
    keep it so. *)

Section WellFormed.

Lemma has_key_elem (k : string) (d : dict) : has_key k d = true <-> k ∈ keys d.
Proof.
  unfold has_key. induction d as [|[k' v] d IH]; simpl.
  - split; [discriminate|]. intros H. inversion H.
  - destruct (String.eqb k' k) eqn:E.
    + apply String.eqb_eq in E. subst. split; [intros _; apply list_elem_of_here|easy].
    + rewrite IH. split; [apply list_elem_of_further|].
      intros H. apply elem_of_cons in H as [->|H]; [|exact H].
      rewrite String.eqb_refl in E. discriminate.
Qed.

Lemma keys_setitem (k : string) (v : value) (d : dict) :
  keys (setitem k v d) = if has_key k d then keys d else keys d ++ [k].
Proof.
  unfold has_key. induction d as [|[k' v'] d IH]; simpl; [reflexivity|].
  destruct (String.eqb k' k) eqn:E; simpl; [reflexivity|].
  rewrite IH. now destruct (get k d).
Qed.

Lemma dict_ok_setitem (k : string) (v : value) (d : dict) :
  dict_ok d -> dict_ok (setitem k v d).
Proof.
  unfold dict_ok. intros Hd. rewrite keys_setitem.
  destruct (has_key k d) eqn:E; [exact Hd|].
  apply NoDup_app. split; [exact Hd|]. split; [|apply NoDup_singleton].
  intros x Hx Hx'. apply list_elem_of_singleton in Hx'. subst x.
  apply has_key_elem in Hx. congruence.
Qed.

Lemma has_key_setitem (k k' : string) (v : value) (d : dict) :
  has_key k' d = true -> has_key k' (setitem k v d) = true.
Proof.
  rewrite !has_key_elem, keys_setitem. intros H.
  destruct (has_key k d); [exact H|]. apply elem_of_app. now left.
Qed.

Lemma has_fields_setitem (ks : list string) (k : string) (v : value) (d : dict) :
  has_fields ks d = true -> has_fields ks (setitem k v d) = true.
Proof.
  unfold has_fields. rewrite !forallb_forall. intros H x Hx.
  apply has_key_setitem. now apply H.
Qed.

Lemma is_claim_approved (d : dict) :
  is_claim d = true -> is_claim (setitem "status" (VStr "approved") d) = true.
Proof.
  unfold is_claim. rewrite !andb_true_iff. intros [Hd Hf]. split.
  - apply bool_decide_eq_true_2, dict_ok_setitem. now apply bool_decide_eq_true_1 in Hd.
  - now apply has_fields_setitem.
Qed.

Lemma is_item_claimed_by (b : value) (d : dict) :
  is_item d = true -> is_item (claimed_by b d) = true.
Proof.
  unfold claimed_by. destruct (bool_decide _); [|easy].
  unfold is_item. rewrite !andb_true_iff. intros [[Hd Hf] Hn]. repeat split.
  - apply bool_decide_eq_true_2, dict_ok_setitem. now apply bool_decide_eq_true_1 in Hd.
  - now apply has_fields_setitem.
  - unfold has_str in *. now rewrite get_setitem_ne by discriminate.
Qed.

Lemma well_formed_fields (w : World) :
  well_formed w = true ->
  forallb (has_fields ["email"; "password"]) (users w) = true /\
  forallb (has_str "name") (items w) = true /\
  forallb (has_key "item_id") (items w) = true /\
  forallb (has_fields ["claim_id"; "item_id"]) (claims w) = true /\
  Forall dict_ok (users w) /\ Forall dict_ok (items w) /\ Forall dict_ok (claims w).
Proof.
  unfold well_formed. rewrite !andb_true_iff, !forallb_forall.
  intros [[Hu Hi] Hc]. repeat split.
  - intros d Hd. specialize (Hu d Hd). unfold is_user in Hu.
    apply andb_true_iff in Hu as [_ Hu]. unfold has_fields in *.
    rewrite forallb_forall in Hu |- *. intros k Hk. apply Hu.
    simpl in Hk |- *. intuition.
  - intros d Hd. specialize (Hi d Hd). unfold is_item in Hi.
    now apply andb_true_iff in Hi as [_ Hi].
  - intros d Hd. specialize (Hi d Hd). unfold is_item in Hi.
    apply andb_true_iff in Hi as [Hi _]. apply andb_true_iff in Hi as [_ Hi].
    apply (has_fields_key _ _ _ Hi). simpl; auto.
  - intros d Hd. specialize (Hc d Hd). unfold is_claim in Hc.
    apply andb_true_iff in Hc as [_ Hc]. unfold has_fields in *.
    rewrite forallb_forall in Hc |- *. intros k Hk. apply Hc.
    simpl in Hk |- *. intuition.
  - apply Forall_forall. intros d Hd. apply list_elem_of_In, Hu in Hd.
    unfold is_user in Hd. apply andb_true_iff in Hd as [Hd _].
    now apply bool_decide_eq_true_1 in Hd.
  - apply Forall_forall. intros d Hd. apply list_elem_of_In, Hi in Hd.
    unfold is_item in Hd. apply andb_true_iff in Hd as [Hd _].
    apply andb_true_iff in Hd as [Hd _]. now apply bool_decide_eq_true_1 in Hd.
  - apply Forall_forall. intros d Hd. apply list_elem_of_In, Hc in Hd.
    unfold is_claim in Hd. apply andb_true_iff in Hd as [Hd _].
    now apply bool_decide_eq_true_1 in Hd.
Qed.

(** The world after the start of the module and the controller's
    [__init__], from a disk without files. *)
Lemma well_formed_start :
  let w := snd ((bootstrap;; DLFSController.__init__) (mkWorld [] [] [] ∅)) in
  well_formed w = true /\ users w = [default_admin] /\ items w = [] /\ claims w = [].
Proof. now vm_compute. Qed.

Lemma well_formed_report_item (r : Z) (name : string)
    (description location item_type user_id : value) (w : World) :
  well_formed w = true ->
  well_formed
    (snd (report_item r (VStr name) description location item_type user_id w)) = true.
Proof.
  rewrite report_item_run. unfold well_formed. simpl.
  rewrite !andb_true_iff, forallb_app. intros [[Hu Hi] Hc].
  now rewrite Hu, Hi, Hc.
Qed.

Lemma well_formed_claim_item (r : Z) (user_id item_id : value) (w : World) :
  well_formed w = true ->
  well_formed (snd (claim_item r user_id item_id w)) = true.
Proof.
  rewrite claim_item_run. unfold well_formed. simpl.
  rewrite !andb_true_iff, forallb_app. intros [[Hu Hi] Hc].
  now rewrite Hu, Hi, Hc.
Qed.

Lemma well_formed_approve_claim (claim_id : value) (w : World) :
  well_formed w = true ->
  well_formed (snd (approve_claim claim_id w)) = true.
Proof.
  intros Hwf.
  destruct (well_formed_fields w Hwf) as (_ & _ & Hits & Hcs & _).
  destruct (existsb (fun d => bool_decide (get "claim_id" d = Some claim_id)) (claims w))
    eqn:E.
  - apply existsb_exists in E as (c0 & Hin & Hc0).
    apply bool_decide_eq_true_1 in Hc0.
    destruct (first_claim claim_id (claims w)) as (pre & c & post & Hsplit & Hne & Hc).
    { exists c0. split; [now apply list_elem_of_In|exact Hc0]. }
    destruct (approve_claim_hit claim_id pre post c w Hcs Hits Hsplit Hne Hc)
      as (b & _ & ->).
    unfold well_formed in *. simpl. rewrite Hsplit in Hwf.
    rewrite !andb_true_iff, !forallb_app in *. simpl in *.
    rewrite !andb_true_iff in *. destruct Hwf as [[Hu Hi] (Hpre & Hcl & Hpost)].
    repeat split; try assumption.
    + rewrite forallb_forall in Hi |- *. intros d Hd.
      apply in_map_iff in Hd as (d' & <- & Hd'). apply is_item_claimed_by. now apply Hi.
    + now apply is_claim_approved.
  - rewrite approve_claim_miss; [exact Hwf|exact Hcs|].
    apply Forall_forall. intros d Hd Hget.
    assert (existsb (fun d => bool_decide (get "claim_id" d = Some claim_id)) (claims w)
            = true) as E'; [|congruence].
    apply existsb_exists. exists d. split; [now apply list_elem_of_In|].
    now apply bool_decide_eq_true_2.
Qed.

End WellFormed.

(** ** Properties of the storage adapter *)

Lemma save_data_run (file_name : string) (data : list dict) (w : World) :
  save_data file_name data w =
  (Ok tt, set_disk (<[path_join DATA_DIR file_name := Json.dumps data]> (disk w)) w).
Proof. reflexivity. Qed.

Lemma load_data_run (file_name text : string) (w : World) :
  disk w !! path_join DATA_DIR file_name = Some text ->
  load_data file_name w =
  (match Json.loads text with
   | Json.Decoded data => Ok data
   | Json.JSONDecodeError => Ok []
   | Json.Other => Raise (Unmodelled (path_join DATA_DIR file_name))
   end, w).
Proof.
  intros H. unfold load_data, gets, mbind, M_bind. rewrite H.
  now destruct (Json.loads text).
Qed.

(** C7. Saving a sequence of records under a collection name and then
    loading that collection returns the sequence saved, record for record
    and field for field; the records are dicts (no key twice), and the
    sequence may be empty. *)
Theorem save_load_roundtrip (file_name : string) (data : list dict) (w : World) :
  Forall dict_ok data ->
  exists w',
    save_data file_name data w = (Ok tt, w') /\
    load_data file_name w' = (Ok data, w').
Proof.
  intros Hok. eexists. split; [apply save_data_run|].
  rewrite (load_data_run file_name (Json.dumps data)).
  - now rewrite JsonFacts.loads_dumps.
  - apply lookup_insert_eq.
Qed.

Lemma save_load_roundtrip_witness :
  exists w',
    save_data "items.json" (items world_three_items) world_two_users = (Ok tt, w') /\
    load_data "items.json" w' = (Ok (items world_three_items), w').
Proof.
  apply (save_load_roundtrip "items.json" (items world_three_items) world_two_users).
  repeat constructor; apply (bool_decide_unpack _); vm_compute; exact I.
Defined.

Example save_load_empty (file_name : string) (w : World) :
  fst (load_data file_name (snd (save_data file_name [] w))) = Ok [].
Proof.
  rewrite save_data_run. cbn [snd].
  rewrite (load_data_run file_name (Json.dumps [])); [reflexivity|].
  apply lookup_insert_eq.
Qed.

(** The files that [save_all] wrote load back as the lists in memory. *)
Lemma persisted_load (w : World) :
  persisted w ->
  Forall dict_ok (users w) -> Forall dict_ok (items w) -> Forall dict_ok (claims w) ->
  load_data "users.json" w = (Ok (users w), w) /\
  load_data "items.json" w = (Ok (items w), w) /\
  load_data "claims.json" w = (Ok (claims w), w).
Proof.
  intros (Hu & Hi & Hc) Hus His Hcs. repeat split.
  - rewrite (load_data_run _ _ _ Hu). now rewrite JsonFacts.loads_dumps.
  - rewrite (load_data_run _ _ _ Hi). now rewrite JsonFacts.loads_dumps.
  - rewrite (load_data_run _ _ _ Hc). now rewrite JsonFacts.loads_dumps.
Qed.



(** Texts the decoder refuses: an empty file, a file cut short, a comma
    before the closing bracket, a key in single quotes, a missing comma, a
    number with a leading zero, text after the value, a missing colon, a
    tab inside a str. *)
Example loads_refused :
  Forall (fun text => Json.loads text = Json.JSONDecodeError)
    [EmptyString; "[{"; "[{" +:+ Json.encode_string "id" +:+ ": 1}"; "[1,]";
     "[{'id': 1}]"; "[1 2]"; "[01]"; "[] []"; "nul"; "[1.]"; "-"; "[1e+]";
     "{" +:+ Json.encode_string "id" +:+ " 1}";
     "[" +:+ String Json.quote (String "009" (String Json.quote "]"))].
Proof. repeat (constructor; [vm_compute; reflexivity|]). constructor. Qed.

(** Texts the decoder accepts that have not the shape the store writes:
    the model follows [load_data] no further. *)
Example loads_other :
  Forall (fun text => Json.loads text = Json.Other)
    ["[1, 2]"; "{}"; "null"; "1.5e3"; "-Infinity"; " true "; "[[], {}]";
     "{" +:+ Json.encode_string "id" +:+ ": 1}";
     "[{" +:+ Json.encode_string "id" +:+ ": [1]}]";
     "[{" +:+ Json.encode_string "id" +:+ ": null}]";
     "[{" +:+ Json.encode_string "id" +:+ ": 0.5}]";
     "[" +:+ String Json.quote ("\u0141" +:+ String Json.quote "]")].
Proof. repeat (constructor; [vm_compute; reflexivity|]). constructor. Qed.

(** Texts that pass a limit of the interpreter, where the decoder gives up
    with an error that [load_data] does not catch. *)
Example check_beyond :
  Json.check (String.string_of_list_ascii (repeat "["%char 101)) = Json.Beyond /\
  Json.check (String.string_of_list_ascii ("["%char :: repeat "1"%char 4301 ++ [","%char]))
  = Json.Beyond /\
  Json.check (String.string_of_list_ascii (repeat "["%char 100 ++ ["}"%char])) = Json.Invalid.
Proof. repeat split; vm_compute; reflexivity. Qed.

Example load_data_other_value :
  fst (load_data "items.json"
         (mkWorld [] [] [] {[ "data/items.json" := "[1, 2]" ]})) =
  Raise (Unmodelled "data/items.json").
Proof. reflexivity. Qed.

Example load_data_empty_file :
  fst (load_data "claims.json"
         (mkWorld [] [] [] {[ "data/claims.json" := EmptyString ]})) = Ok [].
Proof. reflexivity. Qed.

Example load_data_missing_file :
  fst (load_data "claims.json" (mkWorld [] [] [] ∅)) =
  Raise (FileNotFoundError "data/claims.json").
Proof. reflexivity. Qed.

(** ** Properties of the record store *)

Section Login.

Variables email password : value.

Lemma credentials_dec (user : dict) (e p : value) :
  get "email" user = Some e -> get "password" user = Some p ->
  py_eq e email && py_eq p password = true <-> credentials email password user.
Proof.
  intros He Hp. unfold credentials. rewrite He, Hp, andb_true_iff, !py_eq_true.
  split; intros [H1 H2]; split; congruence.
Qed.

Lemma login_loop_spec (us : list dict) :
  forallb (has_fields ["email"; "password"]) us = true ->
  exists res, login_loop email password us = Ok res /\
    match res with
    | Some u =>
        exists pre post, us = pre ++ u :: post /\ credentials email password u /\
          Forall (fun d => ~ credentials email password d) pre
    | None => Forall (fun d => ~ credentials email password d) us
    end.
Proof.
  induction us as [|user rest IH]; cbn [forallb login_loop].
  - intros _. exists None. split; [reflexivity|constructor].
  - rewrite andb_true_iff. intros [Hu Hrest].
    destruct (getitem_ok "email" user) as (e & He & Hge);
      [apply (has_fields_key _ _ _ Hu); simpl; auto|].
    destruct (getitem_ok "password" user) as (p & Hp & Hgp);
      [apply (has_fields_key _ _ _ Hu); simpl; auto|].
    pose proof (credentials_dec user e p He Hp) as Hdec.
    destruct (IH Hrest) as (res & Hres & Hspec).
    rewrite Hge; simpl. destruct (py_eq e email) eqn:Ee; simpl in Hdec.
    + rewrite Hgp; simpl. destruct (py_eq p password) eqn:Ep.
      * exists (Some user). split; [reflexivity|].
        exists [], rest.
        split; [reflexivity|split; [apply Hdec; reflexivity|constructor]].
      * exists res. split; [exact Hres|].
        assert (~ credentials email password user) as Hno
          by (intros H; apply Hdec in H; discriminate).
        destruct res as [u|].
        -- destruct Hspec as (pre & post & -> & Hc & Hpre).
           exists (user :: pre), post.
           split; [reflexivity|split; [exact Hc|now constructor]].
        -- now constructor.
    + exists res. split; [exact Hres|].
      assert (~ credentials email password user) as Hno
        by (intros H; apply Hdec in H; discriminate).
      destruct res as [u|].
      * destruct Hspec as (pre & post & -> & Hc & Hpre).
        exists (user :: pre), post.
        split; [reflexivity|split; [exact Hc|now constructor]].
      * now constructor.
Qed.

End Login.

(** C2. On a user collection whose records carry an email and a password,
    [login] returns the first record whose email and password fields both
    equal the ones given, leaves the world as it is, and returns [None]
    exactly when no record of the collection matches both. *)
Theorem login_first_match (email password : value) (w : World) :
  forallb (has_fields ["email"; "password"]) (users w) = true ->
  exists res, login email password w = (Ok res, w) /\
    (forall u, res = Some u ->
       exists pre post, users w = pre ++ u :: post /\
         credentials email password u /\
         Forall (fun d => ~ credentials email password d) pre) /\
    (res = None <-> Forall (fun d => ~ credentials email password d) (users w)).
Proof.
  intros Hwf. destruct (login_loop_spec email password _ Hwf) as (res & Hres & Hspec).
  exists res. split; [|split].
  - unfold login, gets, lift, mbind, M_bind. now rewrite Hres.
  - intros u ->. exact Hspec.
  - split.
    + intros ->. exact Hspec.
    + intros Hall. destruct res as [u|]; [|reflexivity].
      destruct Hspec as (pre & post & Hus & Hc & _).
      rewrite Hus in Hall. apply Forall_app in Hall as [_ Hall].
      apply Forall_cons in Hall as [Hno _]. contradiction.
Qed.

Lemma login_first_match_witness :
  exists res,
    login (VStr "ann@dlfs.com") (VStr "pw") world_two_users = (Ok res, world_two_users) /\
    (forall u, res = Some u ->
       exists pre post, users world_two_users = pre ++ u :: post /\
         credentials (VStr "ann@dlfs.com") (VStr "pw") u /\
         Forall (fun d => ~ credentials (VStr "ann@dlfs.com") (VStr "pw") d) pre) /\
    (res = None <->
     Forall (fun d => ~ credentials (VStr "ann@dlfs.com") (VStr "pw") d)
       (users world_two_users)).
Proof.
  apply (login_first_match (VStr "ann@dlfs.com") (VStr "pw") world_two_users).
  reflexivity.
Defined.

Section Search.

Variable keyword : string.

#[local] Instance substring_dec (k s : string) : Decision (substring k s).
Proof.
  destruct (str_in k s) eqn:E.
  - left. now apply str_in_spec.
  - right. intros H. apply str_in_spec in H. congruence.
Defined.

#[global] Instance name_contains_dec (item : dict) : Decision (name_contains keyword item).
Proof.
  unfold name_contains. destruct (get "name" item) as [[n|s]|] eqn:E.
  - right. intros (s & [=] & _).
  - destruct (decide (substring (lower keyword) (lower s))) as [H|H].
    + left. eauto.
    + right. intros (s' & [= <-] & H'). contradiction.
  - right. intros (s & [=] & _).
Defined.

Lemma name_matches_spec (item : dict) :
  has_str "name" item = true ->
  name_matches keyword item = Ok (bool_decide (name_contains keyword item)).
Proof.
  unfold has_str, name_matches, getitem. intros Hn.
  destruct (get "name" item) as [[n|s]|] eqn:E; try discriminate.
  simpl. f_equal.
  destruct (str_in (lower keyword) (lower s)) eqn:Hin.
  - symmetry. apply bool_decide_eq_true_2. exists s. split; [exact E|].
    now apply str_in_spec.
  - symmetry. apply bool_decide_eq_false_2. intros (s' & Hs' & H).
    rewrite E in Hs'. injection Hs' as <-.
    apply str_in_spec in H. congruence.
Qed.

Lemma search_loop_spec (its : list dict) :
  forallb (has_str "name") its = true ->
  search_loop keyword its = Ok (filter (name_contains keyword) its).
Proof.
  induction its as [|item rest IH]; cbn [forallb search_loop]; [reflexivity|].
  rewrite andb_true_iff. intros [Hn Hrest].
  rewrite (name_matches_spec _ Hn), (IH Hrest). simpl.
  rewrite filter_cons. unfold mret, result_ret. f_equal.
  destruct (decide (name_contains keyword item)) as [H|H].
  - now rewrite bool_decide_eq_true_2.
  - now rewrite bool_decide_eq_false_2.
Qed.

End Search.

Lemma name_contains_empty (item : dict) :
  has_str "name" item = true -> name_contains EmptyString item.
Proof.
  unfold has_str, name_contains.
  destruct (get "name" item) as [[n|s]|]; try discriminate.
  intros _. exists s. split; [reflexivity|].
  apply str_in_spec. apply str_in_empty.
Qed.

(** C3. On an item collection whose records carry a str name,
    [search_items k] returns, in the order of the collection, exactly the
    items whose name, lower-cased, has [k], lower-cased, as a substring; with
    the empty keyword it returns every item. *)
Theorem search_items_spec (keyword : string) (w : World) :
  forallb (has_str "name") (items w) = true ->
  search_items keyword w = (Ok (filter (name_contains keyword) (items w)), w) /\
  search_items EmptyString w = (Ok (items w), w).
Proof.
  intros Hwf. unfold search_items, gets, lift, mbind, M_bind.
  rewrite !search_loop_spec by exact Hwf. split; [reflexivity|].
  f_equal. f_equal. clear keyword.
  induction (items w) as [|item rest IH]; [reflexivity|].
  simpl in Hwf. apply andb_true_iff in Hwf as [Hn Hrest].
  rewrite filter_cons_True by now apply name_contains_empty.
  now rewrite IH.
Qed.

Lemma search_items_spec_witness :
  search_items "WALL" world_three_items =
    (Ok (filter (name_contains "WALL") (items world_three_items)), world_three_items) /\
  search_items EmptyString world_three_items =
    (Ok (items world_three_items), world_three_items).
Proof.
  apply (search_items_spec "WALL" world_three_items). reflexivity.
Defined.

Example search_items_wallet :
  fst (search_items "WALL" world_three_items) =
  Ok [ReportedItem.__dict__
        (ReportedItem.__init__ 1234 (VStr "Blue Wallet") (VStr "leather") (VStr "Library")
           (VStr "lost"));
      ReportedItem.__dict__
        (ReportedItem.__init__ 1234 (VStr "wallet chain") (VStr "steel") (VStr "Gym")
           (VStr "found"))].
Proof. reflexivity. Qed.

(** C4. [report_item] adds exactly one record, at the end of the item
    collection: its status is "reported", its name, description, location
    and item_type are the arguments as given, and its item_id is the
    identifier returned. *)
Theorem report_item_appends (r : Z) (name description location item_type user_id : value)
    (w : World) :
  exists id item w',
    report_item r name description location item_type user_id w = (Ok id, w') /\
    items w' = items w ++ [item] /\
    length (items w') = S (length (items w)) /\
    get "status" item = Some (VStr "reported") /\
    get "name" item = Some name /\
    get "description" item = Some description /\
    get "location" item = Some location /\
    get "item_type" item = Some item_type /\
    get "item_id" item = Some (VStr id).
Proof.
  eexists _, _, _. rewrite report_item_run. split; [reflexivity|].
  split; [reflexivity|]. split.
  - simpl. rewrite length_app. simpl. lia.
  - repeat split.
Qed.

(** C5. [claim_item u i], whatever [u] and [i] are and whatever the user and
    item collections hold, adds exactly one record at the end of the claim
    collection, with status "pending", user_id [u] and item_id [i], and
    returns that record's claim_id. *)
Theorem claim_item_appends (r : Z) (u i : value) (w : World) :
  exists id claim w',
    claim_item r u i w = (Ok id, w') /\
    claims w' = claims w ++ [claim] /\
    length (claims w') = S (length (claims w)) /\
    get "status" claim = Some (VStr "pending") /\
    get "user_id" claim = Some u /\
    get "item_id" claim = Some i /\
    get "claim_id" claim = Some (VStr id).
Proof.
  eexists _, _, _. rewrite claim_item_run. split; [reflexivity|].
  split; [reflexivity|]. split.
  - simpl. rewrite length_app. simpl. lia.
  - repeat split.
Qed.

Lemma approve_loop_true_saved (cid : value) (cs visited : list dict) (w w' : World) :
  approve_loop cid visited cs w = (Ok true, w') -> exists w1, w' = saved w1.
Proof.
  revert visited. induction cs as [|c cs IH]; intros visited; simpl.
  - intros [=].
  - unfold mbind, M_bind, lift.
    destruct (getitem "claim_id" c) as [a|e]; [|intros [=]].
    destruct (py_eq a cid); [|apply IH].
    unfold modify, update_items; simpl.
    destruct (claim_items _ _) as [[[]|e] its]; simpl; [|intros [=]].
    intros [= <-].
    now exists (set_items its
                  (set_claims (visited ++ setitem "status" (VStr "approved") c :: cs) w)).
Qed.

(** C6. After [report_item], after [claim_item], and after an
    [approve_claim] that found the claim, each of the three files, also
    those of the collections the method did not touch, holds the encoding
    of the collection in memory, whatever the files held before; and files
    that hold these encodings load back as the collections in memory. *)
Theorem mutations_persist_all :
  (forall r name description location item_type user_id w,
     persisted (snd (report_item r name description location item_type user_id w))) /\
  (forall r user_id item_id w, persisted (snd (claim_item r user_id item_id w))) /\
  (forall claim_id w w', approve_claim claim_id w = (Ok true, w') -> persisted w') /\
  (forall w,
     persisted w ->
     Forall dict_ok (users w) -> Forall dict_ok (items w) -> Forall dict_ok (claims w) ->
     load_data "users.json" w = (Ok (users w), w) /\
     load_data "items.json" w = (Ok (items w), w) /\
     load_data "claims.json" w = (Ok (claims w), w)).
Proof.
  split; [|split; [|split]].
  - intros. rewrite report_item_run. apply saved_persisted.
  - intros. rewrite claim_item_run. apply saved_persisted.
  - intros cid w w' H. apply approve_loop_true_saved in H as [w1 ->].
    apply saved_persisted.
  - apply persisted_load.
Qed.

Lemma mutations_persist_all_witness :
  persisted (snd (approve_claim (VStr "CLM-5678") world_three_items)).
Proof.
  destruct mutations_persist_all as (_ & _ & H & _).
  apply (H (VStr "CLM-5678") world_three_items). reflexivity.
Defined.

(** C9. The user id passed to [report_item] has no effect: with the same
    number drawn, two calls that differ only in the user id return the same
    identifier and leave the same world, and the record added has the six
    fields of an item and none for the reporting user. *)
Theorem report_item_ignores_user (r : Z) (name description location item_type u1 u2 : value)
    (w : World) :
  report_item r name description location item_type u1 w =
  report_item r name description location item_type u2 w /\
  exists item,
    items (snd (report_item r name description location item_type u1 w)) =
      items w ++ [item] /\
    keys item = ["item_id"; "name"; "description"; "location"; "item_type"; "status"].
Proof.
  split; [reflexivity|]. eexists. split; reflexivity.
Qed.

(** C1. On a store whose claims carry a claim_id and an item_id and whose
    items carry an item_id: when some claim has the given id,
    [approve_claim] returns true, the claim found (the first with that id)
    has its status set to "approved", and every item whose item_id equals
    that claim's item_id has its status set to "claimed"; when no claim has
    the given id it returns false and leaves the whole world unchanged. *)
Theorem approve_claim_spec (claim_id : value) (w : World) :
  forallb (has_fields ["claim_id"; "item_id"]) (claims w) = true ->
  forallb (has_key "item_id") (items w) = true ->
  ((exists c, c ∈ claims w /\ get "claim_id" c = Some claim_id) ->
   exists pre c post b w',
     claims w = pre ++ c :: post /\
     Forall (fun d => get "claim_id" d <> Some claim_id) pre /\
     get "claim_id" c = Some claim_id /\
     get "item_id" c = Some b /\
     approve_claim claim_id w = (Ok true, w') /\
     claims w' = pre ++ setitem "status" (VStr "approved") c :: post /\
     get "status" (setitem "status" (VStr "approved") c) = Some (VStr "approved") /\
     items w' = map (claimed_by b) (items w) /\
     users w' = users w) /\
  ((forall c, c ∈ claims w -> get "claim_id" c <> Some claim_id) ->
   approve_claim claim_id w = (Ok false, w)).
Proof.
  intros Hcs Hits. split.
  - intros Hsome.
    destruct (first_claim claim_id (claims w) Hsome) as (pre & c & post & Hsplit & Hne & Hc).
    destruct (approve_claim_hit claim_id pre post c w Hcs Hits Hsplit Hne Hc)
      as (b & Hb & Hrun).
    eexists pre, c, post, b, _.
    split; [exact Hsplit|]. split; [exact Hne|]. split; [exact Hc|].
    split; [exact Hb|]. split; [exact Hrun|].
    split; [reflexivity|]. split; [apply get_setitem_eq|]. split; reflexivity.
  - intros Hnone. apply approve_claim_miss; [exact Hcs|]. now apply Forall_forall.
Qed.

Lemma approve_claim_spec_witness :
  let claim_id := VStr "CLM-5678" in
  let w := world_three_items in
  ((exists c, c ∈ claims w /\ get "claim_id" c = Some claim_id) ->
   exists pre c post b w',
     claims w = pre ++ c :: post /\
     Forall (fun d => get "claim_id" d <> Some claim_id) pre /\
     get "claim_id" c = Some claim_id /\
     get "item_id" c = Some b /\
     approve_claim claim_id w = (Ok true, w') /\
     claims w' = pre ++ setitem "status" (VStr "approved") c :: post /\
     get "status" (setitem "status" (VStr "approved") c) = Some (VStr "approved") /\
     items w' = map (claimed_by b) (items w) /\
     users w' = users w) /\
  ((forall c, c ∈ claims w -> get "claim_id" c <> Some claim_id) ->
   approve_claim claim_id w = (Ok false, w)).
Proof.
  apply (approve_claim_spec (VStr "CLM-5678") world_three_items); reflexivity.
Defined.

Example approve_claim_three_items :
  let w' := snd (approve_claim (VStr "CLM-5678") world_three_items) in
  fst (approve_claim (VStr "CLM-5678") world_three_items) = Ok true /\
  map (get "status") (claims w') = [Some (VStr "approved"); Some (VStr "pending")] /\
  map (get "status") (items w') =
    [Some (VStr "claimed"); Some (VStr "reported"); Some (VStr "claimed")].
Proof. repeat split. Qed.

Example approve_claim_unknown :
  approve_claim (VStr "CLM-0000") world_three_items = (Ok false, world_three_items).
Proof. reflexivity. Qed.

(** C10. When several claims carry the given id and several items carry the
    item_id of the first of them, [approve_claim] changes the first such
    claim only, every other claim, also a later one with the same id,
    staying as it was, and sets the status of every one of those items to
    "claimed", the other items staying as they were. *)
Theorem approve_claim_collision (claim_id b : value) (pre post : list dict) (c : dict)
    (w : World) :
  forallb (has_fields ["claim_id"; "item_id"]) (claims w) = true ->
  forallb (has_key "item_id") (items w) = true ->
  claims w = pre ++ c :: post ->
  Forall (fun d => get "claim_id" d <> Some claim_id) pre ->
  get "claim_id" c = Some claim_id ->
  get "item_id" c = Some b ->
  exists w',
    approve_claim claim_id w = (Ok true, w') /\
    claims w' !! length pre = Some (setitem "status" (VStr "approved") c) /\
    (forall i, i <> length pre -> claims w' !! i = claims w !! i) /\
    (forall i item, items w !! i = Some item -> get "item_id" item = Some b ->
       items w' !! i = Some (setitem "status" (VStr "claimed") item)) /\
    (forall i item, items w !! i = Some item -> get "item_id" item <> Some b ->
       items w' !! i = Some item) /\
    length (items w') = length (items w).
Proof.
  intros Hcs Hits Hsplit Hne Hc Hb.
  destruct (approve_claim_hit claim_id pre post c w Hcs Hits Hsplit Hne Hc)
    as (b' & Hb' & Hrun).
  assert (b' = b) as -> by congruence.
  eexists. split; [exact Hrun|].
  simpl. split; [|split; [|split; [|split]]].
  - now rewrite list_lookup_middle.
  - intros i Hi. rewrite Hsplit.
    destruct (decide (i < length pre)%nat) as [Hlt|Hge].
    + now rewrite !lookup_app_l.
    + rewrite !lookup_app_r by lia.
      destruct (i - length pre)%nat as [|j] eqn:E; [lia|reflexivity].
  - intros i item Hi Hitem. rewrite list_lookup_fmap, Hi. simpl.
    unfold claimed_by. now rewrite bool_decide_eq_true_2.
  - intros i item Hi Hitem. rewrite list_lookup_fmap, Hi. simpl.
    unfold claimed_by. now rewrite bool_decide_eq_false_2.
  - apply length_map.
Qed.

Lemma approve_claim_collision_witness :
  exists w',
    approve_claim (VStr "CLM-5678") world_collision = (Ok true, w') /\
    map (get "status") (claims w') =
      [Some (VStr "pending"); Some (VStr "approved"); Some (VStr "pending")] /\
    map (get "status") (items w') =
      [Some (VStr "claimed"); Some (VStr "reported"); Some (VStr "claimed")].
Proof.
  destruct (approve_claim_collision (VStr "CLM-5678") (VStr "ITEM-1234")
              [Claim.__dict__ (Claim.__init__ 1111 (VInt 4) (VStr "ITEM-4321"))]
              [Claim.__dict__ (Claim.__init__ 5678 (VInt 3) (VStr "ITEM-4321"))]
              (Claim.__dict__ (Claim.__init__ 5678 (VInt 2) (VStr "ITEM-1234")))
              world_collision)
    as (w' & Hrun & _); try reflexivity.
  - repeat constructor. discriminate.
  - exists w'. split; [exact Hrun|].
    injection Hrun as <-. split; reflexivity.
Defined.

(** ** Further properties: start, storage and store *)

Section Start.

Lemma create_missing_run (file : string) (w : World) :
  create_missing file w = (Ok tt, ensure_file file w).
Proof.
  unfold create_missing, ensure_file, initial_content, gets, modify, mbind, M_bind.
  destruct (disk w !! path_join DATA_DIR file); [reflexivity|].
  now destruct (String.eqb file "users.json").
Qed.

Lemma bootstrap_run (w : World) :
  bootstrap w =
  (Ok tt, ensure_file "claims.json" (ensure_file "items.json" (ensure_file "users.json" w))).
Proof.
  unfold bootstrap, mbind, M_bind. now rewrite !create_missing_run.
Qed.

Lemma ensure_file_memory (file : string) (w : World) :
  users (ensure_file file w) = users w /\
  items (ensure_file file w) = items w /\
  claims (ensure_file file w) = claims w.
Proof. unfold ensure_file. now destruct (disk w !! _). Qed.

Lemma ensure_file_keeps (file p text : string) (w : World) :
  disk w !! p = Some text -> disk (ensure_file file w) !! p = Some text.
Proof.
  unfold ensure_file. intros Hp.
  destruct (disk w !! path_join DATA_DIR file) eqn:E; [exact Hp|]. simpl.
  rewrite lookup_insert_ne; [exact Hp|]. congruence.
Qed.

Lemma ensure_file_there (file : string) (w : World) :
  exists text, disk (ensure_file file w) !! path_join DATA_DIR file = Some text /\
    (disk w !! path_join DATA_DIR file = None -> text = initial_content file).
Proof.
  unfold ensure_file.
  destruct (disk w !! path_join DATA_DIR file) as [text|] eqn:E.
  - exists text. split; [exact E|discriminate].
  - eexists. split; [apply lookup_insert_eq|reflexivity].
Qed.

Lemma ensure_file_other (file p : string) (w : World) :
  p <> path_join DATA_DIR file -> disk (ensure_file file w) !! p = disk w !! p.
Proof.
  unfold ensure_file. intros Hp.
  destruct (disk w !! path_join DATA_DIR file); [reflexivity|]. simpl.
  now rewrite lookup_insert_ne.
Qed.

Lemma ensure_file_present (file : string) (w : World) :
  is_Some (disk w !! path_join DATA_DIR file) -> ensure_file file w = w.
Proof. unfold ensure_file. now intros [text ->]. Qed.

Lemma bootstrap_fresh (w : World) :
  let w' := ensure_file "claims.json"
              (ensure_file "items.json" (ensure_file "users.json" w)) in
  (disk w !! users_path = None ->
   disk w' !! users_path = Some (Json.dumps [default_admin])) /\
  (disk w !! items_path = None -> disk w' !! items_path = Some (Json.dumps [])) /\
  (disk w !! claims_path = None -> disk w' !! claims_path = Some (Json.dumps [])).
Proof.
  cbv zeta. split; [|split].
  - intros Hnone. do 2 apply ensure_file_keeps.
    destruct (ensure_file_there "users.json" w) as (text & Ht & Hinit).
    fold users_path in Ht, Hinit. rewrite Ht. f_equal. now apply Hinit.
  - intros Hnone. apply ensure_file_keeps.
    destruct (ensure_file_there "items.json" (ensure_file "users.json" w))
      as (text & Ht & Hinit).
    fold items_path in Ht, Hinit. rewrite Ht. f_equal.
    apply Hinit. now rewrite ensure_file_other by discriminate.
  - intros Hnone.
    destruct (ensure_file_there "claims.json"
                (ensure_file "items.json" (ensure_file "users.json" w)))
      as (text & Ht & Hinit).
    fold claims_path in Ht, Hinit. rewrite Ht. f_equal.
    apply Hinit. now rewrite !ensure_file_other by discriminate.
Qed.

End Start.

(** X1. The start of the module changes nothing in memory and no file that
    exists: a file on disk keeps its content, each of the three collection
    files that was missing is created, users.json with the default admin
    and the other two with the empty list, and no other path is written. *)
Theorem bootstrap_creates_missing_only (w : World) :
  exists w',
    bootstrap w = (Ok tt, w') /\
    users w' = users w /\ items w' = items w /\ claims w' = claims w /\
    (forall p text, disk w !! p = Some text -> disk w' !! p = Some text) /\
    (disk w !! users_path = None ->
     disk w' !! users_path = Some (Json.dumps [default_admin])) /\
    (disk w !! items_path = None -> disk w' !! items_path = Some (Json.dumps [])) /\
    (disk w !! claims_path = None -> disk w' !! claims_path = Some (Json.dumps [])) /\
    (forall p, p <> users_path -> p <> items_path -> p <> claims_path ->
       disk w' !! p = disk w !! p).
Proof.
  destruct paths_distinct as (Hui & Huc & Hic).
  eexists. split; [apply bootstrap_run|].
  pose proof (ensure_file_memory "users.json" w) as (Mu1 & Mi1 & Mc1).
  pose proof (ensure_file_memory "items.json" (ensure_file "users.json" w))
    as (Mu2 & Mi2 & Mc2).
  pose proof (ensure_file_memory "claims.json"
                (ensure_file "items.json" (ensure_file "users.json" w)))
    as (Mu3 & Mi3 & Mc3).
  split; [congruence|]. split; [congruence|]. split; [congruence|].
  pose proof (bootstrap_fresh w) as (Hnu & Hni & Hnc).
  split; [|split; [|split; [|split]]]; try assumption.
  - intros p text Hp. now do 3 apply ensure_file_keeps.
  - intros p H1 H2 H3. now rewrite !ensure_file_other by assumption.
Qed.

Section Init.

Lemma load_data_decode (file_name text : string) (data : list dict) (w : World) :
  disk w !! path_join DATA_DIR file_name = Some text ->
  decode text = Some data ->
  load_data file_name w = (Ok data, w).
Proof.
  intros Hfile Hd. rewrite (load_data_run _ _ _ Hfile). unfold decode in Hd.
  destruct (Json.loads text); congruence.
Qed.

Lemma load_data_missing (file_name : string) (w : World) :
  disk w !! path_join DATA_DIR file_name = None ->
  load_data file_name w = (Raise (FileNotFoundError (path_join DATA_DIR file_name)), w).
Proof.
  intros H. unfold load_data, gets, lift, mbind, M_bind. now rewrite H.
Qed.

Lemma init_run (tu ti tc : string) (us its cs : list dict) (w : World) :
  disk w !! users_path = Some tu -> decode tu = Some us ->
  disk w !! items_path = Some ti -> decode ti = Some its ->
  disk w !! claims_path = Some tc -> decode tc = Some cs ->
  DLFSController.__init__ w = (Ok tt, mkWorld us its cs (disk w)).
Proof.
  intros Hu Du Hi Di Hc Dc. unfold DLFSController.__init__, modify, mbind, M_bind.
  rewrite (load_data_decode "users.json" tu us w Hu Du).
  rewrite (load_data_decode "items.json" ti its (set_users us w) Hi Di).
  now rewrite (load_data_decode "claims.json" tc cs (set_items its (set_users us w)) Hc Dc).
Qed.

Lemma bootstrap_files (w : World) :
  let w' := snd (bootstrap w) in
  is_Some (disk w' !! users_path) /\
  is_Some (disk w' !! items_path) /\
  is_Some (disk w' !! claims_path).
Proof.
  rewrite bootstrap_run. cbn [snd]. repeat split.
  - destruct (ensure_file_there "users.json" w) as (text & Ht & _).
    exists text. now do 2 apply ensure_file_keeps.
  - destruct (ensure_file_there "items.json" (ensure_file "users.json" w))
      as (text & Ht & _).
    exists text. now apply ensure_file_keeps.
  - destruct (ensure_file_there "claims.json"
                (ensure_file "items.json" (ensure_file "users.json" w)))
      as (text & Ht & _).
    now exists text.
Qed.

Lemma decode_dumps (data : list dict) :
  Forall dict_ok data -> decode (Json.dumps data) = Some data.
Proof. intros H. unfold decode. now rewrite JsonFacts.loads_dumps. Qed.

Lemma decode_refused (text : string) :
  Json.loads text = Json.JSONDecodeError -> decode text = Some [].
Proof. unfold decode. now intros ->. Qed.





End Init.




(** X4. Restarting the program brings back the store that was saved:
    whatever the memory holds at the start, when the three files hold the
    encodings of the collections of a world, as they do after every
    [save_all], the start of the module creates nothing and [__init__]
    replaces the memory by those collections, record for record. *)
Theorem restart_restores (w : World) (us its cs : list dict) :
  Forall dict_ok (users w) -> Forall dict_ok (items w) -> Forall dict_ok (claims w) ->
  persisted w ->
  (bootstrap;; DLFSController.__init__) (mkWorld us its cs (disk w)) = (Ok tt, w).
Proof.
  intros Hus His Hcs (Hu & Hi & Hc). unfold mbind, M_bind.
  rewrite bootstrap_run.
  rewrite (ensure_file_present "users.json") by (eexists; exact Hu).
  rewrite (ensure_file_present "items.json") by (eexists; exact Hi).
  rewrite (ensure_file_present "claims.json") by (eexists; exact Hc).
  rewrite (init_run _ _ _ (users w) (items w) (claims w) (mkWorld us its cs (disk w))
             Hu (decode_dumps _ Hus) Hi (decode_dumps _ His) Hc (decode_dumps _ Hcs)).
  now destruct w.
Qed.

Lemma restart_restores_witness :
  (bootstrap;; DLFSController.__init__)
    (mkWorld [] [] [] (disk (saved world_three_items))) =
  (Ok tt, saved world_three_items).
Proof.
  apply (restart_restores (saved world_three_items) [] [] []);
    [repeat constructor; apply (bool_decide_unpack _); vm_compute; exact I..
    |apply saved_persisted].
Defined.



Section LoginEdge.

Variables email password : value.

Lemma login_loop_passed (pre rest : list dict) :
  Forall (passed_over email password) pre ->
  login_loop email password (pre ++ rest) = login_loop email password rest.
Proof.
  induction 1 as [|d pre (e & He & Hd) _ IH]; [reflexivity|].
  cbn [app login_loop].
  assert (getitem "email" d = Ok e) as -> by (unfold getitem; now rewrite He).
  cbn. destruct (py_eq e email) eqn:Ee.
  - destruct Hd as [Hne|(p & Hp & Hne)].
    + apply py_eq_true in Ee. contradiction.
    + assert (getitem "password" d = Ok p) as -> by (unfold getitem; now rewrite Hp).
      cbn. apply py_eq_false in Hne. now rewrite Hne.
  - exact IH.
Qed.

End LoginEdge.

(** X5. [login] reads the records in order, and a password only in a
    record whose email is the one given. It passes over a record with
    another email, also one without a password, and over a record with the
    email given and another password. It returns [None] when it has passed
    over every record; at the first record it cannot pass over it stops,
    whatever the records after it hold: it raises [KeyError] for email
    when the record has no email, [KeyError] for password when the record
    has the email given and no password, and returns the record when it
    has both credentials. The world is unchanged. *)
Theorem login_passes_over (email password : value) (pre : list dict) (w : World) :
  Forall (passed_over email password) pre ->
  (users w = pre -> login email password w = (Ok None, w)) /\
  (forall u post, users w = pre ++ u :: post ->
     (get "email" u = None ->
      login email password w = (Raise (KeyError "email"), w)) /\
     (get "email" u = Some email -> get "password" u = None ->
      login email password w = (Raise (KeyError "password"), w)) /\
     (get "email" u = Some email -> get "password" u = Some password ->
      login email password w = (Ok (Some u), w))).
Proof.
  intros Hpre. unfold login, gets, lift, mbind, M_bind. split.
  - intros ->. rewrite <- (app_nil_r pre). now rewrite login_loop_passed.
  - intros u post ->. rewrite login_loop_passed by exact Hpre. cbn [login_loop].
    split; [|split].
    + intros He.
      assert (getitem "email" u = Raise (KeyError "email")) as ->
        by (unfold getitem; now rewrite He).
      reflexivity.
    + intros He Hp.
      assert (getitem "email" u = Ok email) as -> by (unfold getitem; now rewrite He).
      assert (getitem "password" u = Raise (KeyError "password")) as ->
        by (unfold getitem; now rewrite Hp).
      cbn. now rewrite (proj2 (py_eq_true email email) eq_refl).
    + intros He Hp.
      assert (getitem "email" u = Ok email) as -> by (unfold getitem; now rewrite He).
      assert (getitem "password" u = Ok password) as ->
        by (unfold getitem; now rewrite Hp).
      cbn. now rewrite !(proj2 (py_eq_true _ _) eq_refl).
Qed.

Lemma login_passes_over_witness :
  let w := mkWorld [default_admin; [("email", VStr "ann@dlfs.com")]; []] [] [] ∅ in
  login (VStr "ann@dlfs.com") (VStr "pw") w = (Raise (KeyError "password"), w) /\
  login (VStr "bob@dlfs.com") (VStr "pw") w = (Raise (KeyError "email"), w).
Proof.
  cbv zeta. split.
  - destruct (login_passes_over (VStr "ann@dlfs.com") (VStr "pw") [default_admin]
                (mkWorld [default_admin; [("email", VStr "ann@dlfs.com")]; []] [] [] ∅))
      as [_ H].
    + repeat constructor. exists (VStr "admin@dlfs.com"). split; [reflexivity|].
      left. discriminate.
    + apply (H [("email", VStr "ann@dlfs.com")] [[]]); reflexivity.
  - destruct (login_passes_over (VStr "bob@dlfs.com") (VStr "pw")
                [default_admin; [("email", VStr "ann@dlfs.com")]]
                (mkWorld [default_admin; [("email", VStr "ann@dlfs.com")]; []] [] [] ∅))
      as [_ H].
    + repeat constructor.
      * exists (VStr "admin@dlfs.com"). split; [reflexivity|]. left. discriminate.
      * exists (VStr "ann@dlfs.com"). split; [reflexivity|]. left. discriminate.
    + apply (H [] []); reflexivity.
Defined.

Section SearchMore.

Lemma lower_char_idem (c : ascii) : lower_char (lower_char c) = lower_char c.
Proof. destruct c as [[] [] [] [] [] [] [] []]; reflexivity. Qed.

Lemma lower_idem (s : string) : lower (lower s) = lower s.
Proof.
  induction s as [|c s IH]; [reflexivity|]. cbn [lower].
  now rewrite lower_char_idem, IH.
Qed.




Lemma search_loop_lower (k1 k2 : string) (its : list dict) :
  lower k1 = lower k2 -> search_loop k1 its = search_loop k2 its.
Proof.
  intros H. induction its as [|item rest IH]; [reflexivity|].
  cbn [search_loop]. unfold name_matches. now rewrite H, IH.
Qed.

Lemma search_items_run (keyword : string) (w : World) :
  search_items keyword w = (search_loop keyword (items w), w).
Proof. reflexivity. Qed.

Lemma search_loop_app_ok (keyword : string) (pre rest : list dict) :
  forallb (has_str "name") pre = true ->
  search_loop keyword (pre ++ rest) =
  (found ← search_loop keyword rest;
   mret (filter (name_contains keyword) pre ++ found)).
Proof.
  induction pre as [|item pre IH]; cbn [forallb app search_loop].
  - intros _. now destruct (search_loop keyword rest).
  - rewrite andb_true_iff. intros [Hn Hpre].
    rewrite (name_matches_spec _ _ Hn), (IH Hpre).
    destruct (search_loop keyword rest) as [found|e]; [|reflexivity].
    unfold mbind, result_bind, mret, result_ret.
    rewrite filter_cons. f_equal.
    destruct (decide (name_contains keyword item)) as [H|H].
    + now rewrite bool_decide_eq_true_2.
    + now rewrite bool_decide_eq_false_2.
Qed.

End SearchMore.

(** X6. [search_items] does not see the case of the keyword: two keywords
    with the same lower-case form give the same outcome, and so do a
    keyword and its lower-case form. *)
Theorem search_items_case_insensitive (keyword : string) (w : World) :
  search_items (lower keyword) w = search_items keyword w /\
  (forall k, lower k = lower keyword -> search_items k w = search_items keyword w).
Proof.
  rewrite !search_items_run. split.
  - f_equal. apply search_loop_lower, lower_idem.
  - intros k Hk. rewrite search_items_run. f_equal. now apply search_loop_lower.
Qed.



(** X8. An item just reported is found under its own name: after
    [report_item] with a str name, [search_items] with that name returns
    the items it found before followed by the new record. *)
Theorem report_then_search (r : Z) (name : string)
    (description location item_type user_id : value) (w : World) :
  forallb (has_str "name") (items w) = true ->
  let item := ReportedItem.__dict__
                (ReportedItem.__init__ r (VStr name) description location item_type) in
  (report_item r (VStr name) description location item_type user_id;;
   search_items name) w =
  (Ok (filter (name_contains name) (items w) ++ [item]),
   snd (report_item r (VStr name) description location item_type user_id w)).
Proof.
  intros Hwf. cbv zeta. unfold mbind, M_bind. rewrite report_item_run, search_items_run.
  cbn [snd items set_items saved set_disk]. f_equal.
  rewrite (search_loop_app_ok name _ _ Hwf).
  cbn [search_loop]. unfold name_matches. cbn.
  assert (str_in (lower name) (lower name) = true) as ->.
  { apply str_in_spec. exists EmptyString, EmptyString.
    cbn. induction (lower name) as [|c s IH]; cbn; [reflexivity|]. now rewrite <- IH. }
  reflexivity.
Qed.

Lemma report_then_search_witness :
  fst ((report_item 2222 (VStr "Wallet") (VStr "brown") (VStr "Hall") (VStr "lost") (VInt 1);;
        search_items "Wallet") world_three_items) =
  Ok (filter (name_contains "Wallet") (items world_three_items) ++
      [ReportedItem.__dict__
         (ReportedItem.__init__ 2222 (VStr "Wallet") (VStr "brown") (VStr "Hall")
            (VStr "lost"))]).
Proof.
  rewrite (report_then_search 2222 "Wallet" (VStr "brown") (VStr "Hall") (VStr "lost")
             (VInt 1) world_three_items); reflexivity.
Defined.

(** X9. [search_items] fails on the first item without a str name and
    returns no partial result: a missing name raises [KeyError], an int
    name raises [AttributeError], whatever the keyword and the items after
    it; the world is unchanged. *)
Theorem search_items_bad_name (keyword : string) (pre post : list dict) (bad : dict)
    (w : World) :
  items w = pre ++ bad :: post ->
  forallb (has_str "name") pre = true ->
  (get "name" bad = None ->
   search_items keyword w = (Raise (KeyError "name"), w)) /\
  (forall n, get "name" bad = Some (VInt n) ->
   search_items keyword w = (Raise (AttributeError "lower"), w)).
Proof.
  intros Hsplit Hpre. rewrite search_items_run, Hsplit.
  rewrite (search_loop_app_ok keyword pre (bad :: post) Hpre).
  cbn [search_loop]. unfold name_matches, getitem. split.
  - intros ->. reflexivity.
  - intros n ->. reflexivity.
Qed.

Lemma search_items_bad_name_witness :
  search_items "a" (mkWorld [] [[("name", VStr "Hat")]; [("name", VInt 7)]] [] ∅) =
  (Raise (AttributeError "lower"),
   mkWorld [] [[("name", VStr "Hat")]; [("name", VInt 7)]] [] ∅).
Proof.
  destruct (search_items_bad_name "a" [[("name", VStr "Hat")]] [] [("name", VInt 7)]
              (mkWorld [] [[("name", VStr "Hat")]; [("name", VInt 7)]] [] ∅)
              eq_refl eq_refl) as [_ H].
  apply (H 7). reflexivity.
Defined.

Section Identifiers.

Lemma four_digits_check :
  forallb (fun k => let s := str_of_int (1000 + Z.of_nat k) in
                    (String.length s =? 4)%nat && Json.all_digits s)
    (seq 0 (90 * 100)) = true.
Proof. vm_compute. reflexivity. Qed.

Lemma four_digits (r : Z) :
  1000 <= r <= 9999 ->
  String.length (str_of_int r) = 4%nat /\ Json.all_digits (str_of_int r) = true.
Proof.
  intros Hr. pose proof four_digits_check as H. rewrite forallb_forall in H.
  specialize (H (Z.to_nat (r - 1000))).
  replace (1000 + Z.of_nat (Z.to_nat (r - 1000))) with r in H by lia.
  apply andb_true_iff in H as [Hl Hd].
  - split; [now apply Nat.eqb_eq in Hl|exact Hd].
  - apply in_seq. lia.
Qed.

Lemma string_of_uint_inj (u v : Decimal.uint) :
  NilEmpty.string_of_uint u = NilEmpty.string_of_uint v -> u = v.
Proof.
  intros H. pose proof (NilEmpty.usu u) as Hu. rewrite H, NilEmpty.usu in Hu.
  congruence.
Qed.

Lemma str_of_N_inj (m n : N) : str_of_N m = str_of_N n -> m = n.
Proof.
  intros H. now apply DecimalN.Unsigned.to_uint_inj, string_of_uint_inj.
Qed.

Lemma str_of_N_no_sign (n : N) (s : string) : str_of_N n <> String "-" s.
Proof.
  intros H. pose proof (JsonFacts.string_of_uint_digits (N.to_uint n)) as Hd.
  unfold str_of_N in H. rewrite H in Hd. discriminate.
Qed.

Lemma str_of_int_inj (m n : Z) : str_of_int m = str_of_int n -> m = n.
Proof.
  destruct m as [|p|p], n as [|q|q]; unfold str_of_int; intros H;
    try (apply str_of_N_inj in H; simpl in H; congruence);
    try (exfalso; apply (str_of_N_no_sign _ _ H));
    try (exfalso; symmetry in H; apply (str_of_N_no_sign _ _ H)).
  injection H as H. apply str_of_N_inj in H. congruence.
Qed.

End Identifiers.

(** X10. With a number drawn between 1000 and 9999, as [random.randint]
    draws it, the identifier of a new item is ITEM- followed by exactly
    four decimal digits, and that of a new claim is CLM- followed by the
    same four digits. *)
Theorem identifiers_four_digits (r : Z) (name description location item_type : value)
    (user_id item_id : value) :
  1000 <= r <= 9999 ->
  exists digits,
    String.length digits = 4%nat /\ Json.all_digits digits = true /\
    ReportedItem.item_id (ReportedItem.__init__ r name description location item_type) =
      "ITEM-" +:+ digits /\
    Claim.claim_id (Claim.__init__ r user_id item_id) = "CLM-" +:+ digits.
Proof.
  intros Hr. destruct (four_digits r Hr) as [Hl Hd].
  exists (str_of_int r). repeat split; assumption.
Qed.

Lemma identifiers_four_digits_witness :
  exists digits,
    String.length digits = 4%nat /\ Json.all_digits digits = true /\
    ReportedItem.item_id
      (ReportedItem.__init__ 1000 (VStr "Hat") (VStr "red") (VStr "Gym") (VStr "lost")) =
      "ITEM-" +:+ digits /\
    Claim.claim_id (Claim.__init__ 1000 (VInt 1) (VStr "ITEM-1000")) = "CLM-" +:+ digits.
Proof.
  apply (identifiers_four_digits 1000). lia.
Defined.

(** X11. Identifiers collide exactly when the same number is drawn: two new
    items have the same item_id if and only if their draws are equal,
    whatever their other fields, and so for two new claims. *)
Theorem identifiers_collide_iff (r1 r2 : Z) (n1 d1 l1 t1 n2 d2 l2 t2 u1 i1 u2 i2 : value) :
  (ReportedItem.item_id (ReportedItem.__init__ r1 n1 d1 l1 t1) =
   ReportedItem.item_id (ReportedItem.__init__ r2 n2 d2 l2 t2) <-> r1 = r2) /\
  (Claim.claim_id (Claim.__init__ r1 u1 i1) = Claim.claim_id (Claim.__init__ r2 u2 i2)
   <-> r1 = r2).
Proof.
  cbn [ReportedItem.__init__ ReportedItem.item_id Claim.__init__ Claim.claim_id].
  split; (split; [|now intros ->]); intros H;
    apply String.app_inj in H; now apply str_of_int_inj.
Qed.

Section ApproveMore.

Lemma saved_disk_again (us its cs : list dict) (w : World) :
  saved (mkWorld us its cs (disk (saved w))) = saved (mkWorld us its cs (disk w)).
Proof.
  unfold saved, set_disk. cbn [users items claims disk]. f_equal.
  apply map_eq. intros p.
  destruct (decide (p = claims_path)) as [->|Hc].
  { now rewrite !lookup_insert_eq. }
  rewrite !(lookup_insert_ne _ claims_path) by congruence.
  destruct (decide (p = items_path)) as [->|Hi].
  { now rewrite !lookup_insert_eq. }
  rewrite !(lookup_insert_ne _ items_path) by congruence.
  destruct (decide (p = users_path)) as [->|Hu].
  { now rewrite !lookup_insert_eq. }
  rewrite !(lookup_insert_ne _ users_path) by congruence.
  rewrite !(lookup_insert_ne _ claims_path) by congruence.
  rewrite !(lookup_insert_ne _ items_path) by congruence.
  now rewrite !(lookup_insert_ne _ users_path) by congruence.
Qed.

Lemma setitem_idem (k : string) (v : value) (d : dict) :
  setitem k v (setitem k v d) = setitem k v d.
Proof.
  induction d as [|[k' v'] d IH]; cbn.
  - now rewrite String.eqb_refl.
  - destruct (String.eqb k' k) eqn:E; cbn; rewrite E; [reflexivity|now rewrite IH].
Qed.

Lemma claimed_by_idem (b : value) (item : dict) :
  claimed_by b (claimed_by b item) = claimed_by b item.
Proof.
  unfold claimed_by. destruct (bool_decide (get "item_id" item = Some b)) eqn:E;
    [|now rewrite E].
  rewrite get_setitem_ne by discriminate. rewrite E. apply setitem_idem.
Qed.

Lemma has_key_claimed_by (k : string) (b : value) (item : dict) :
  has_key k item = true -> has_key k (claimed_by b item) = true.
Proof.
  unfold claimed_by. destruct (bool_decide _); [apply has_key_setitem|easy].
Qed.

Lemma claimed_by_other (b : value) (its : list dict) :
  Forall (fun item => get "item_id" item <> Some b) its ->
  map (claimed_by b) its = its.
Proof.
  induction 1 as [|item its Hne _ IH]; [reflexivity|]. cbn. rewrite IH. f_equal.
  unfold claimed_by. now rewrite bool_decide_eq_false_2.
Qed.

Lemma same_but_status_refl (d : dict) : same_but_status d d.
Proof. now intros k _. Qed.

Lemma same_but_status_setitem (v : value) (d : dict) :
  same_but_status d (setitem "status" v d).
Proof. intros k Hk. apply get_setitem_ne. congruence. Qed.

Lemma Forall2_same_refl (l : list dict) : Forall2 same_but_status l l.
Proof. induction l; constructor; [apply same_but_status_refl|assumption]. Qed.

Lemma claim_items_same (claim : dict) (its : list dict) :
  Forall2 same_but_status its (snd (claim_items claim its)).
Proof.
  induction its as [|item rest IH]; cbn [claim_items]; [constructor|].
  destruct (getitem "item_id" item); [|apply Forall2_same_refl].
  destruct (getitem "item_id" claim); [|apply Forall2_same_refl].
  destruct (claim_items claim rest) as [r rest']. cbn [snd] in *.
  constructor; [|exact IH].
  destruct (py_eq a a0); [apply same_but_status_setitem|apply same_but_status_refl].
Qed.

Lemma approve_loop_cons (cid : value) (visited cs : list dict) (c : dict) (w : World) :
  approve_loop cid visited (c :: cs) w =
  match getitem "claim_id" c with
  | Raise e => (Raise e, w)
  | Ok a =>
      if py_eq a cid then
        let c' := setitem "status" (VStr "approved") c in
        let w1 := set_items (snd (claim_items c' (items w)))
                    (set_claims (visited ++ c' :: cs) w) in
        match fst (claim_items c' (items w)) with
        | Ok _ => (Ok true, saved w1)
        | Raise e => (Raise e, w1)
        end
      else approve_loop cid (visited ++ [c]) cs w
  end.
Proof.
  cbn [approve_loop]. unfold mbind at 1, M_bind at 1, lift.
  destruct (getitem "claim_id" c) as [a|e]; [|reflexivity].
  destruct (py_eq a cid); [|reflexivity].
  unfold mbind, M_bind, modify, update_items. cbn [items set_claims].
  now destruct (claim_items _ (items w)) as [[[]|e] its].
Qed.

Lemma approve_loop_same (cid : value) (cs visited : list dict) (w : World) :
  claims w = visited ++ cs ->
  let w' := snd (approve_loop cid visited cs w) in
  users w' = users w /\
  Forall2 same_but_status (claims w) (claims w') /\
  Forall2 same_but_status (items w) (items w').
Proof.
  revert visited. induction cs as [|c cs IH]; intros visited Hcs.
  - cbn. repeat split; apply Forall2_same_refl.
  - cbv zeta. rewrite approve_loop_cons.
    destruct (getitem "claim_id" c) as [a|e].
    + destruct (py_eq a cid).
      * pose proof (claim_items_same (setitem "status" (VStr "approved") c) (items w))
          as Hits.
        assert (Forall2 same_but_status (claims w)
                  (visited ++ setitem "status" (VStr "approved") c :: cs)) as Hcl.
        { rewrite Hcs. apply Forall2_app; [apply Forall2_same_refl|].
          constructor; [apply same_but_status_setitem|apply Forall2_same_refl]. }
        cbv zeta. destruct (claim_items _ (items w)) as [[[]|e] its]; cbn in *; auto.
      * apply IH. now rewrite <- app_assoc.
    + cbn. repeat split; apply Forall2_same_refl.
Qed.

End ApproveMore.

(** X12. [approve_claim] changes statuses and nothing else, on every
    store and also when it raises: the users are untouched, no claim and
    no item is added, removed or moved, and every field other than status
    of every claim and item keeps its value. *)
Theorem approve_claim_only_status (claim_id : value) (w : World) :
  let w' := snd (approve_claim claim_id w) in
  users w' = users w /\
  Forall2 same_but_status (claims w) (claims w') /\
  Forall2 same_but_status (items w) (items w').
Proof.
  unfold approve_claim, gets, mbind, M_bind. now apply approve_loop_same.
Qed.

(** X13. Approving twice is approving once: on a store whose claims carry
    claim_id and item_id and whose items carry item_id, a second
    [approve_claim] with the same id returns what the first returned and
    leaves the world the first left; a claim already approved is not
    refused, the second call returns true as the first did. *)
Theorem approve_claim_idempotent (claim_id : value) (w : World) :
  forallb (has_fields ["claim_id"; "item_id"]) (claims w) = true ->
  forallb (has_key "item_id") (items w) = true ->
  (approve_claim claim_id;; approve_claim claim_id) w = approve_claim claim_id w /\
  ((exists c, c ∈ claims w /\ get "claim_id" c = Some claim_id) ->
   fst ((approve_claim claim_id;; approve_claim claim_id) w) = Ok true).
Proof.
  intros Hcs Hits.
  assert ((approve_claim claim_id;; approve_claim claim_id) w = approve_claim claim_id w)
    as Heq.
  { unfold mbind, M_bind.
    destruct (existsb (fun d => bool_decide (get "claim_id" d = Some claim_id)) (claims w))
      eqn:E.
    - apply existsb_exists in E as (c0 & Hin & Hc0).
      apply bool_decide_eq_true_1 in Hc0.
      destruct (first_claim claim_id (claims w)) as (pre & c & post & Hsplit & Hne & Hc).
      { exists c0. split; [now apply list_elem_of_In|exact Hc0]. }
      destruct (approve_claim_hit claim_id pre post c w Hcs Hits Hsplit Hne Hc)
        as (b & Hb & ->).
      set (c' := setitem "status" (VStr "approved") c).
      set (w1 := saved _).
      assert (has_fields ["claim_id"; "item_id"] c = true) as Hfc.
      { rewrite forallb_forall in Hcs. apply Hcs. rewrite Hsplit. apply in_elt. }
      destruct (approve_claim_hit claim_id pre post c' w1) as (b' & Hb' & ->).
      + change (forallb (has_fields ["claim_id"; "item_id"]) (pre ++ c' :: post) = true).
        rewrite Hsplit, forallb_app in Hcs. cbn [forallb] in Hcs.
        apply andb_true_iff in Hcs as [Hp Hq]. apply andb_true_iff in Hq as [_ Hq].
        rewrite forallb_app. cbn [forallb].
        unfold c'. now rewrite Hp, Hq, (has_fields_setitem _ _ _ _ Hfc).
      + change (forallb (has_key "item_id") (map (claimed_by b) (items w)) = true).
        rewrite forallb_forall in Hits |- *. intros d Hd.
        apply in_map_iff in Hd as (d' & <- & Hd'). apply has_key_claimed_by. now apply Hits.
      + reflexivity.
      + exact Hne.
      + unfold c'. now rewrite get_setitem_ne by discriminate.
      + assert (b' = b) as ->.
        { unfold c' in Hb'. rewrite get_setitem_ne in Hb' by discriminate. congruence. }
        f_equal. unfold c', w1. rewrite setitem_idem. cbn [items saved set_disk set_items set_claims users claims disk].
        rewrite map_map. rewrite (map_ext _ (claimed_by b) (claimed_by_idem b)).
        apply (saved_disk_again (users w) (map (claimed_by b) (items w))
                 (pre ++ setitem "status" (VStr "approved") c :: post)
                 (set_items (map (claimed_by b) (items w))
                    (set_claims (pre ++ setitem "status" (VStr "approved") c :: post) w))).
    - assert (Forall (fun d => get "claim_id" d <> Some claim_id) (claims w)) as Hnone.
      { apply Forall_forall. intros d Hd Hget.
        assert (existsb (fun d => bool_decide (get "claim_id" d = Some claim_id)) (claims w)
                = true) as E'; [|congruence].
        apply existsb_exists. exists d. split; [now apply list_elem_of_In|].
        now apply bool_decide_eq_true_2. }
      rewrite (approve_claim_miss claim_id w Hcs Hnone).
      apply (approve_claim_miss claim_id w Hcs Hnone). }
  split; [exact Heq|]. intros Hex. rewrite Heq.
  destruct (first_claim claim_id (claims w) Hex) as (pre & c & post & Hsplit & Hne & Hc).
  destruct (approve_claim_hit claim_id pre post c w Hcs Hits Hsplit Hne Hc)
    as (b & Hb & ->).
  reflexivity.
Qed.

Lemma approve_claim_idempotent_witness :
  (approve_claim (VStr "CLM-5678");; approve_claim (VStr "CLM-5678")) world_collision =
  approve_claim (VStr "CLM-5678") world_collision /\
  fst ((approve_claim (VStr "CLM-5678");; approve_claim (VStr "CLM-5678")) world_collision)
  = Ok true.
Proof.
  destruct (approve_claim_idempotent (VStr "CLM-5678") world_collision eq_refl eq_refl)
    as [H1 H2].
  split; [exact H1|]. apply H2.
  exists (Claim.__dict__ (Claim.__init__ 5678 (VInt 2) (VStr "ITEM-1234"))).
  split; [|reflexivity]. vm_compute. apply list_elem_of_further, list_elem_of_here.
Defined.

(** X14. A claim on an item that does not exist is approved all the same:
    when no item carries the item_id of the claim found, [approve_claim]
    returns true, marks the claim approved and leaves every item as it
    was. *)
Theorem approve_claim_dangling (claim_id : value) (pre post : list dict) (c : dict)
    (w : World) :
  forallb (has_fields ["claim_id"; "item_id"]) (claims w) = true ->
  forallb (has_key "item_id") (items w) = true ->
  claims w = pre ++ c :: post ->
  Forall (fun d => get "claim_id" d <> Some claim_id) pre ->
  get "claim_id" c = Some claim_id ->
  Forall (fun item => get "item_id" item <> get "item_id" c) (items w) ->
  exists w',
    approve_claim claim_id w = (Ok true, w') /\
    items w' = items w /\
    claims w' = pre ++ setitem "status" (VStr "approved") c :: post.
Proof.
  intros Hcs Hits Hsplit Hne Hc Hnone.
  destruct (approve_claim_hit claim_id pre post c w Hcs Hits Hsplit Hne Hc)
    as (b & Hb & ->).
  eexists. split; [reflexivity|]. cbn. split; [|reflexivity].
  apply claimed_by_other. now rewrite Hb in Hnone.
Qed.

Lemma approve_claim_dangling_witness :
  exists w',
    approve_claim (VStr "CLM-1")
      (mkWorld [] [] [Claim.__dict__ (Claim.mk "CLM-1" (VInt 1) (VStr "ITEM-0") "pending")] ∅)
    = (Ok true, w') /\
    items w' = [] /\
    claims w' =
      [] ++ setitem "status" (VStr "approved")
              (Claim.__dict__ (Claim.mk "CLM-1" (VInt 1) (VStr "ITEM-0") "pending")) :: [].
Proof.
  apply (approve_claim_dangling (VStr "CLM-1") [] []
           (Claim.__dict__ (Claim.mk "CLM-1" (VInt 1) (VStr "ITEM-0") "pending"))
           (mkWorld [] []
              [Claim.__dict__ (Claim.mk "CLM-1" (VInt 1) (VStr "ITEM-0") "pending")] ∅));
    try reflexivity; constructor.
Defined.

Section ApproveFailure.

Lemma approve_loop_skip (cid : value) (pre rest visited : list dict) (w : World) :
  forallb (has_key "claim_id") pre = true ->
  Forall (fun d => get "claim_id" d <> Some cid) pre ->
  approve_loop cid visited (pre ++ rest) w = approve_loop cid (visited ++ pre) rest w.
Proof.
  revert visited. induction pre as [|d pre IH]; intros visited Hk Hne.
  - now rewrite app_nil_r.
  - cbn [forallb] in Hk. apply andb_true_iff in Hk as [Hd Hk].
    apply Forall_cons in Hne as [Hdne Hne].
    destruct (getitem_ok _ _ Hd) as (a & Ha & Hget).
    cbn [app]. rewrite approve_loop_cons, Hget.
    destruct (py_eq a cid) eqn:E.
    + apply py_eq_true in E. congruence.
    + rewrite IH by assumption. now rewrite <- app_assoc.
Qed.

Lemma claim_items_bad (claim bad : dict) (b : value) (its1 its2 : list dict) :
  get "item_id" claim = Some b ->
  forallb (has_key "item_id") its1 = true ->
  get "item_id" bad = None ->
  claim_items claim (its1 ++ bad :: its2) =
  (Raise (KeyError "item_id"), map (claimed_by b) its1 ++ bad :: its2).
Proof.
  intros Hb Hk Hbad. induction its1 as [|item its1 IH]; cbn [app claim_items map].
  - unfold getitem. now rewrite Hbad.
  - cbn [forallb] in Hk. apply andb_true_iff in Hk as [Hi Hk].
    destruct (getitem_ok _ _ Hi) as (a & Ha & ->).
    unfold getitem at 1. rewrite Hb, (IH Hk). f_equal. f_equal.
    unfold claimed_by. rewrite Ha.
    destruct (py_eq a b) eqn:E.
    + apply py_eq_true in E. subst. now rewrite bool_decide_eq_true_2.
    + apply py_eq_false in E. rewrite bool_decide_eq_false_2; [easy|congruence].
Qed.

End ApproveFailure.

(** X15. [approve_claim] is not atomic: when the claim is found and an
    item without item_id is met, it raises [KeyError] with the claim
    already approved and the items before that one already claimed in
    memory, and with nothing written to disk. *)
Theorem approve_claim_partial (claim_id b : value) (pre post its1 its2 : list dict)
    (c bad : dict) (w : World) :
  claims w = pre ++ c :: post ->
  forallb (has_key "claim_id") pre = true ->
  Forall (fun d => get "claim_id" d <> Some claim_id) pre ->
  get "claim_id" c = Some claim_id ->
  get "item_id" c = Some b ->
  items w = its1 ++ bad :: its2 ->
  forallb (has_key "item_id") its1 = true ->
  get "item_id" bad = None ->
  exists w',
    approve_claim claim_id w = (Raise (KeyError "item_id"), w') /\
    claims w' = pre ++ setitem "status" (VStr "approved") c :: post /\
    items w' = map (claimed_by b) its1 ++ bad :: its2 /\
    users w' = users w /\ disk w' = disk w.
Proof.
  intros Hsplit Hk Hne Hc Hb Hits Hk1 Hbad. eexists. split.
  - unfold approve_claim, gets, mbind, M_bind. rewrite Hsplit.
    rewrite approve_loop_skip by assumption. rewrite approve_loop_cons.
    unfold getitem at 1. rewrite Hc, (proj2 (py_eq_true claim_id claim_id) eq_refl).
    cbv zeta. rewrite Hits, (claim_items_bad _ bad b its1 its2); try assumption.
    + reflexivity.
    + now rewrite get_setitem_ne by discriminate.
  - cbn. repeat split.
Qed.

Lemma approve_claim_partial_witness :
  exists w',
    approve_claim (VStr "CLM-1")
      (mkWorld [] [[("item_id", VStr "ITEM-0")]; []]
         [Claim.__dict__ (Claim.mk "CLM-1" (VInt 1) (VStr "ITEM-0") "pending")] ∅)
    = (Raise (KeyError "item_id"), w') /\
    map (get "status") (claims w') = [Some (VStr "approved")] /\
    map (get "status") (items w') = [Some (VStr "claimed"); None] /\
    disk w' = ∅.
Proof.
  destruct (approve_claim_partial (VStr "CLM-1") (VStr "ITEM-0") [] []
              [[("item_id", VStr "ITEM-0")]] []
              (Claim.__dict__ (Claim.mk "CLM-1" (VInt 1) (VStr "ITEM-0") "pending")) []
              (mkWorld [] [[("item_id", VStr "ITEM-0")]; []]
                 [Claim.__dict__ (Claim.mk "CLM-1" (VInt 1) (VStr "ITEM-0") "pending")] ∅))
    as (w' & Hrun & Hc & Hi & _ & Hd); try reflexivity; [constructor|].
  exists w'. rewrite Hc, Hi, Hd. repeat split. exact Hrun.
Defined.

(** X16. Approving with the identifier that [claim_item] just returned
    approves the new claim only when no older claim carries that
    identifier: then the new claim, last in the collection, is approved
    and the items with its item_id are claimed; when an older claim
    carries it, the first such claim is approved and the new one stays
    pending. *)
Theorem claim_then_approve (r : Z) (u i : value) (w : World) :
  forallb (has_fields ["claim_id"; "item_id"]) (claims w) = true ->
  forallb (has_key "item_id") (items w) = true ->
  let new := Claim.__dict__ (Claim.__init__ r u i) in
  let id := VStr (Claim.claim_id (Claim.__init__ r u i)) in
  let run := (id' ← claim_item r u i; approve_claim (VStr id')) w in
  ((forall c, c ∈ claims w -> get "claim_id" c <> Some id) ->
   fst run = Ok true /\
   claims (snd run) = claims w ++ [setitem "status" (VStr "approved") new] /\
   items (snd run) = map (claimed_by i) (items w)) /\
  (forall pre c post,
     claims w = pre ++ c :: post ->
     Forall (fun d => get "claim_id" d <> Some id) pre ->
     get "claim_id" c = Some id ->
     fst run = Ok true /\
     claims (snd run) = pre ++ setitem "status" (VStr "approved") c :: post ++ [new]).
Proof.
  intros Hcs Hits new id run.
  assert (run = approve_claim id
                  (saved (set_claims (claims w ++ [new]) w))) as Hrun.
  { unfold run, mbind, M_bind. now rewrite claim_item_run. }
  rewrite Hrun. clear Hrun run.
  set (w1 := saved _).
  assert (forallb (has_fields ["claim_id"; "item_id"]) (claims w1) = true) as Hcs1.
  { change (claims w1) with (claims w ++ [new]). rewrite forallb_app, Hcs. reflexivity. }
  assert (forallb (has_key "item_id") (items w1) = true) as Hits1 by exact Hits.
  split.
  - intros Hnone.
    destruct (approve_claim_hit id (claims w) [] new w1 Hcs1 Hits1 eq_refl)
      as (b & Hb & ->).
    + now apply Forall_forall.
    + reflexivity.
    + cbn in Hb. injection Hb as <-. repeat split.
  - intros pre c post Hsplit Hne Hc.
    destruct (approve_claim_hit id pre (post ++ [new]) c w1 Hcs1 Hits1)
      as (b & Hb & ->); try assumption.
    + change (claims w1) with (claims w ++ [new]). rewrite Hsplit.
      now rewrite <- app_assoc.
    + split; reflexivity.
Qed.

Lemma claim_then_approve_witness :
  let run := (id' ← claim_item 5678 (VInt 9) (VStr "ITEM-4321");
              approve_claim (VStr id')) world_three_items in
  fst run = Ok true /\
  map (get "status") (claims (snd run)) =
    [Some (VStr "approved"); Some (VStr "pending"); Some (VStr "pending")].
Proof.
  destruct (claim_then_approve 5678 (VInt 9) (VStr "ITEM-4321") world_three_items
              eq_refl eq_refl) as [_ H].
  destruct (H [] (Claim.__dict__ (Claim.__init__ 5678 (VInt 2) (VStr "ITEM-1234")))
              [Claim.__dict__ (Claim.__init__ 5678 (VInt 3) (VStr "ITEM-4321"))]
              eq_refl (List.Forall_nil _) eq_refl) as [H1 H2].
  cbv zeta. rewrite H1, H2. split; reflexivity.
Defined.

(** X17. The worlds the program reaches hold records of the data model: the
    world after the start on an empty disk does, and [report_item] with a
    str name, [claim_item] and [approve_claim] keep it so: no key twice in
    a record, every field of its kind present, every item name a str. *)
Theorem well_formed_invariant :
  well_formed (snd ((bootstrap;; DLFSController.__init__) (mkWorld [] [] [] ∅))) = true /\
  (forall r name description location item_type user_id w,
     well_formed w = true ->
     well_formed
       (snd (report_item r (VStr name) description location item_type user_id w)) = true) /\
  (forall r user_id item_id w,
     well_formed w = true ->
     well_formed (snd (claim_item r user_id item_id w)) = true) /\
  (forall claim_id w,
     well_formed w = true ->
     well_formed (snd (approve_claim claim_id w)) = true).
Proof.
  split; [apply well_formed_start|]. split; [|split].
  - intros. now apply well_formed_report_item.
  - intros. now apply well_formed_claim_item.
  - intros. now apply well_formed_approve_claim.
Qed.

(** ** The console: input, fuel and termination *)

Section IOFacts.

Context {A B : Type}.

Lemma bind_run (m : IO A) (f : A -> IO B) (c : Console) :
  (m ≫= f) c =
  match m c with
  | (Done a, c') => f a c'
  | (Raised e, c') => (Raised e, c')
  | (EOFError, c') => (EOFError, c')
  | (OutOfFuel, c') => (OutOfFuel, c')
  end.
Proof. reflexivity. Qed.

Lemma mono_bind (m : IO A) (f : A -> IO B) :
  mono m -> (forall a, mono (f a)) -> mono (m ≫= f).
Proof.
  intros Hm Hf c. rewrite bind_run. specialize (Hm c).
  destruct (m c) as [[a|e| |] c']; cbn [snd] in *; try exact Hm.
  specialize (Hf a c'). lia.
Qed.

Lemma consumes_bind_l (m : IO A) (f : A -> IO B) :
  consumes m -> (forall a, mono (f a)) -> consumes (m ≫= f).
Proof.
  intros Hm Hf c b. rewrite bind_run. specialize (Hm c).
  destruct (m c) as [[a|e| |] c']; cbn [fst snd] in *; try discriminate.
  intros _. specialize (Hm a eq_refl). specialize (Hf a c'). lia.
Qed.

Lemma consumes_bind_r (m : IO A) (f : A -> IO B) :
  mono m -> (forall a, consumes (f a)) -> consumes (m ≫= f).
Proof.
  intros Hm Hf c b. rewrite bind_run. specialize (Hm c).
  destruct (m c) as [[a|e| |] c']; cbn [fst snd] in *; try discriminate.
  intros H. specialize (Hf a c' b H). lia.
Qed.

Lemma safe_bind (m : IO A) (f : A -> IO B) :
  safe m -> (forall a, safe (f a)) -> safe (m ≫= f).
Proof.
  intros Hm Hf c. rewrite bind_run. specialize (Hm c).
  destruct (m c) as [[a|e| |] c']; cbn [fst] in *; try discriminate; [apply Hf|easy].
Qed.

Lemma safe_below_bind (n : nat) (m : IO A) (f : A -> IO B) :
  mono m -> safe_below n m -> (forall a, safe_below n (f a)) -> safe_below n (m ≫= f).
Proof.
  intros Hmono Hm Hf c Hc. rewrite bind_run. specialize (Hm c Hc). specialize (Hmono c).
  destruct (m c) as [[a|e| |] c']; cbn [fst snd] in *; try discriminate; [|easy].
  apply Hf. lia.
Qed.

Lemma keeps_bind (R : World -> World -> Prop) `{!PreOrder R} (m : IO A) (f : A -> IO B) :
  keeps R m -> (forall a, keeps R (f a)) -> keeps R (m ≫= f).
Proof.
  intros Hm Hf c. rewrite bind_run. specialize (Hm c).
  destruct (m c) as [[a|e| |] c']; cbn [snd] in *; try exact Hm.
  etransitivity; [exact Hm|apply Hf].
Qed.

End IOFacts.

Section IOPrimitives.

Context {A : Type}.

Lemma safe_safe_below (n : nat) (m : IO A) : safe m -> safe_below n m.
Proof. intros H c _. apply H. Qed.

Lemma consumes_mono_if (b : bool) (m1 m2 : IO A) :
  mono m1 -> mono m2 -> mono (if b then m1 else m2).
Proof. now destruct b. Qed.

Lemma safe_if (b : bool) (m1 m2 : IO A) :
  safe m1 -> safe m2 -> safe (if b then m1 else m2).
Proof. now destruct b. Qed.

Lemma keeps_if (R : World -> World -> Prop) (b : bool) (m1 m2 : IO A) :
  keeps R m1 -> keeps R m2 -> keeps R (if b then m1 else m2).
Proof. now destruct b. Qed.

Lemma mono_ret (a : A) : mono (mret a).
Proof. intros c. reflexivity. Qed.

Lemma safe_ret (a : A) : safe (mret a).
Proof. intros c. discriminate. Qed.

Lemma keeps_ret (R : World -> World -> Prop) `{!Reflexive R} (a : A) : keeps R (mret a).
Proof. intros c. reflexivity. Qed.

Lemma mono_call (m : M A) : mono (call m).
Proof. intros c. unfold call. now destruct (m (world c)) as [[a|e] w]. Qed.

Lemma safe_call (m : M A) : safe (call m).
Proof. intros c. unfold call. now destruct (m (world c)) as [[a|e] w]. Qed.

Lemma keeps_call (R : World -> World -> Prop) (m : M A) :
  (forall w, R w (snd (m w))) -> keeps R (call m).
Proof.
  intros H c. unfold call. specialize (H (world c)).
  now destruct (m (world c)) as [[a|e] w].
Qed.

Lemma mono_io_lift (r : result A) : mono (io_lift r).
Proof. intros c. now destruct r. Qed.

Lemma safe_io_lift (r : result A) : safe (io_lift r).
Proof. intros c. now destruct r. Qed.

Lemma keeps_io_lift (R : World -> World -> Prop) `{!Reflexive R} (r : result A) :
  keeps R (io_lift r).
Proof. intros c. destruct r; reflexivity. Qed.

End IOPrimitives.

Section IOConsole.

Lemma mono_print (s : string) : mono (print s).
Proof. intros c. reflexivity. Qed.

Lemma safe_print (s : string) : safe (print s).
Proof. intros c. discriminate. Qed.

Lemma keeps_print (R : World -> World -> Prop) `{!Reflexive R} (s : string) :
  keeps R (print s).
Proof. intros c. reflexivity. Qed.

Lemma mono_input (p : string) : mono (input p).
Proof. intros c. unfold input. destruct (stdin c) eqn:E; cbn; rewrite ?E; cbn; lia. Qed.

Lemma consumes_input (p : string) : consumes (input p).
Proof.
  intros c a. unfold input. destruct (stdin c) eqn:E; cbn; rewrite ?E; cbn;
    [discriminate|lia].
Qed.

Lemma safe_input (p : string) : safe (input p).
Proof. intros c. unfold input. now destruct (stdin c). Qed.

Lemma keeps_input (R : World -> World -> Prop) `{!Reflexive R} (p : string) :
  keeps R (input p).
Proof. intros c. unfold input. destruct (stdin c); reflexivity. Qed.

Lemma mono_draw : mono draw.
Proof. intros c. reflexivity. Qed.

Lemma safe_draw : safe draw.
Proof. intros c. discriminate. Qed.

Lemma keeps_draw (R : World -> World -> Prop) `{!Reflexive R} : keeps R draw.
Proof. intros c. reflexivity. Qed.

End IOConsole.

Create HintDb io discriminated.
#[local] Hint Resolve mono_bind safe_bind mono_ret safe_ret mono_call safe_call
  mono_io_lift safe_io_lift mono_print safe_print mono_input safe_input
  mono_draw safe_draw consumes_mono_if safe_if : io.

Section Loops.

Lemma mono_print_all (lines : list string) : mono (print_all lines).
Proof. induction lines; cbn [print_all]; auto with io. Qed.

Lemma safe_print_all (lines : list string) : safe (print_all lines).
Proof. induction lines; cbn [print_all]; auto with io. Qed.

Lemma mono_print_each (line : dict -> result string) (its : list dict) :
  mono (print_each line its).
Proof. induction its; cbn [print_each]; auto 6 with io. Qed.

Lemma safe_print_each (line : dict -> result string) (its : list dict) :
  safe (print_each line its).
Proof. induction its; cbn [print_each]; auto 6 with io. Qed.

Lemma mono_print_results (h n : string) (line : dict -> result string) (rs : list dict) :
  mono (print_results h n line rs).
Proof.
  destruct rs; cbn [print_results]; auto using mono_print_each with io.
Qed.

Lemma safe_print_results (h n : string) (line : dict -> result string) (rs : list dict) :
  safe (print_results h n line rs).
Proof.
  destruct rs; cbn [print_results]; auto using safe_print_each with io.
Qed.

End Loops.

#[local] Hint Resolve mono_print_all safe_print_all mono_print_each safe_print_each
  mono_print_results safe_print_results : io.

Section Bodies.

Lemma mono_report (user : dict) (t r : string) : mono (report user t r).
Proof. unfold report. auto 12 with io. Qed.

Lemma safe_report (user : dict) (t r : string) : safe (report user t r).
Proof. unfold report. auto 12 with io. Qed.

Lemma mono_search_menu : mono search_menu.
Proof. unfold search_menu. cbv zeta. auto 20 with io. Qed.

Lemma safe_search_menu : safe search_menu.
Proof. unfold search_menu. cbv zeta. auto 20 with io. Qed.

Lemma consumes_choice {A} (lines : list string) (p : string) (f : string -> IO A) :
  (forall choice, mono (f choice)) ->
  consumes (print_all lines;; choice ← input p; f choice).
Proof.
  intros Hf. apply consumes_bind_r; [apply mono_print_all|]. intros _.
  apply consumes_bind_l; [apply consumes_input|exact Hf].
Qed.

Lemma consumes_user_menu_body (user : dict) : consumes (user_menu_body user).
Proof.
  unfold user_menu_body. apply consumes_choice. intros choice.
  auto 12 using mono_report, mono_search_menu with io.
Qed.

Lemma safe_user_menu_body (user : dict) : safe (user_menu_body user).
Proof.
  unfold user_menu_body. auto 14 using safe_report, safe_search_menu with io.
Qed.

Lemma consumes_admin_menu_body (admin : dict) : consumes (admin_menu_body admin).
Proof.
  unfold admin_menu_body. apply consumes_choice. intros choice. auto 12 with io.
Qed.

Lemma safe_admin_menu_body (admin : dict) : safe (admin_menu_body admin).
Proof. unfold admin_menu_body. auto 14 with io. Qed.

Lemma mono_user_menu_body (user : dict) : mono (user_menu_body user).
Proof.
  unfold user_menu_body. auto 14 using mono_report, mono_search_menu with io.
Qed.

Lemma mono_admin_menu_body (admin : dict) : mono (admin_menu_body admin).
Proof. unfold admin_menu_body. auto 14 with io. Qed.

End Bodies.

Section WhileTrue.

Variable body : IO bool.
Hypothesis body_mono : mono body.
Hypothesis body_consumes : consumes body.

Lemma mono_while_true (fuel : nat) : mono (while_true fuel body).
Proof.
  induction fuel as [|fuel IH]; cbn [while_true]; [intros c; reflexivity|].
  apply mono_bind; [exact body_mono|]. intros [|]; [exact IH|apply mono_ret].
Qed.

Lemma safe_while_true (n fuel : nat) :
  safe_below n body ->
  forall c, (length (stdin c) < fuel)%nat -> (length (stdin c) < n)%nat ->
    fst (while_true fuel body c) <> OutOfFuel.
Proof.
  intros Hsafe. induction fuel as [|fuel IH]; intros c Hf Hn; [lia|].
  cbn [while_true]. rewrite bind_run.
  specialize (Hsafe c Hn). specialize (body_mono c). specialize (body_consumes c).
  destruct (body c) as [[[|]|e| |] c']; cbn [fst snd] in *; try discriminate; [|easy].
  specialize (body_consumes true eq_refl). apply IH; lia.
Qed.

End WhileTrue.

(** Two loops whose bodies agree below [n] lines of input agree when both
    have fuel for the input. *)
Lemma while_true_agree (n : nat) (body1 body2 : IO bool) :
  mono body1 -> consumes body1 ->
  (forall c, (length (stdin c) < n)%nat -> body1 c = body2 c) ->
  forall f1 f2 c,
    (length (stdin c) < f1)%nat -> (length (stdin c) < f2)%nat ->
    (length (stdin c) < n)%nat ->
    while_true f1 body1 c = while_true f2 body2 c.
Proof.
  intros Hmono Hcons Hagree. induction f1 as [|f1 IH]; intros f2 c H1 H2 Hn; [lia|].
  destruct f2 as [|f2]; [lia|]. cbn [while_true]. rewrite !bind_run.
  rewrite <- (Hagree c Hn). specialize (Hcons c).
  destruct (body1 c) as [[[|]|e| |] c']; cbn [fst snd] in *; try reflexivity.
  specialize (Hcons true eq_refl). apply IH; lia.
Qed.

Section Agree.

Context {A B : Type}.

Lemma agree_below_refl (n : nat) (m : IO A) : agree_below n m m.
Proof. now intros c _. Qed.

Lemma agree_below_bind (n : nat) (m : IO A) (f1 f2 : A -> IO B) :
  mono m -> (forall a, agree_below n (f1 a) (f2 a)) ->
  agree_below n (m ≫= f1) (m ≫= f2).
Proof.
  intros Hm Hf c Hc. rewrite !bind_run. specialize (Hm c).
  destruct (m c) as [[a|e| |] c']; cbn [snd] in *; try reflexivity.
  apply Hf. lia.
Qed.

Lemma agree_below_if (n : nat) (b : bool) (m1 m2 m1' m2' : IO A) :
  agree_below n m1 m1' -> agree_below n m2 m2' ->
  agree_below n (if b then m1 else m2) (if b then m1' else m2').
Proof. now destruct b. Qed.

End Agree.

Section Menus.

Lemma mono_user_menu (fuel : nat) (user : dict) : mono (user_menu fuel user).
Proof.
  apply mono_while_true, mono_user_menu_body.
Qed.

Lemma mono_admin_menu (fuel : nat) (admin : dict) : mono (admin_menu fuel admin).
Proof.
  apply mono_while_true, mono_admin_menu_body.
Qed.

Lemma safe_below_user_menu (fuel : nat) (user : dict) :
  safe_below fuel (user_menu fuel user).
Proof.
  intros c Hc. apply (safe_while_true _ (mono_user_menu_body user)
                        (consumes_user_menu_body user) fuel); try assumption.
  apply safe_safe_below, safe_user_menu_body.
Qed.

Lemma safe_below_admin_menu (fuel : nat) (admin : dict) :
  safe_below fuel (admin_menu fuel admin).
Proof.
  intros c Hc. apply (safe_while_true _ (mono_admin_menu_body admin)
                        (consumes_admin_menu_body admin) fuel); try assumption.
  apply safe_safe_below, safe_admin_menu_body.
Qed.

Lemma agree_user_menu (n f1 f2 : nat) (user : dict) :
  (n <= f1)%nat -> (n <= f2)%nat ->
  agree_below n (user_menu f1 user) (user_menu f2 user).
Proof.
  intros H1 H2 c Hc.
  apply (while_true_agree n); try lia;
    [apply mono_user_menu_body|apply consumes_user_menu_body|reflexivity].
Qed.

Lemma agree_admin_menu (n f1 f2 : nat) (admin : dict) :
  (n <= f1)%nat -> (n <= f2)%nat ->
  agree_below n (admin_menu f1 admin) (admin_menu f2 admin).
Proof.
  intros H1 H2 c Hc.
  apply (while_true_agree n); try lia;
    [apply mono_admin_menu_body|apply consumes_admin_menu_body|reflexivity].
Qed.

Lemma mono_main_body (fuel : nat) : mono (main_body fuel).
Proof.
  unfold main_body. apply mono_bind; [apply mono_print_all|]. intros _.
  apply mono_bind; [apply mono_input|]. intros choice.
  apply consumes_mono_if; [|auto with io].
  apply mono_bind; [apply mono_input|]. intros email.
  apply mono_bind; [apply mono_input|]. intros password.
  apply mono_bind; [apply mono_call|]. intros [[|kv d]|]; try solve [auto with io].
  apply mono_bind; [apply mono_io_lift|]. intros role.
  apply mono_bind; [|auto with io].
  destruct (py_eq role (VStr "admin")); [apply mono_admin_menu|apply mono_user_menu].
Qed.

Lemma consumes_main_body (fuel : nat) : consumes (main_body fuel).
Proof.
  unfold main_body. apply consumes_choice. intros choice.
  apply consumes_mono_if; [|auto with io].
  apply mono_bind; [apply mono_input|]. intros email.
  apply mono_bind; [apply mono_input|]. intros password.
  apply mono_bind; [apply mono_call|]. intros [[|kv d]|]; try solve [auto with io].
  apply mono_bind; [apply mono_io_lift|]. intros role.
  apply mono_bind; [|auto with io].
  destruct (py_eq role (VStr "admin")); [apply mono_admin_menu|apply mono_user_menu].
Qed.

Lemma safe_below_main_body (fuel : nat) : safe_below fuel (main_body fuel).
Proof.
  unfold main_body.
  apply safe_below_bind; [apply mono_print_all|apply safe_safe_below, safe_print_all|].
  intros _.
  apply safe_below_bind; [apply mono_input|apply safe_safe_below, safe_input|].
  intros choice. destruct (String.eqb choice "1");
    [|apply safe_safe_below; auto with io].
  apply safe_below_bind; [apply mono_input|apply safe_safe_below, safe_input|].
  intros email.
  apply safe_below_bind; [apply mono_input|apply safe_safe_below, safe_input|].
  intros password.
  apply safe_below_bind; [apply mono_call|apply safe_safe_below, safe_call|].
  intros [[|kv d]|]; try (apply safe_safe_below; solve [auto with io]).
  apply safe_below_bind; [apply mono_io_lift|apply safe_safe_below, safe_io_lift|].
  intros role.
  apply safe_below_bind; [| |intros; apply safe_safe_below, safe_ret].
  - destruct (py_eq role (VStr "admin")); [apply mono_admin_menu|apply mono_user_menu].
  - destruct (py_eq role (VStr "admin"));
      [apply safe_below_admin_menu|apply safe_below_user_menu].
Qed.

Lemma agree_main_body (n f1 f2 : nat) :
  (n <= f1)%nat -> (n <= f2)%nat -> agree_below n (main_body f1) (main_body f2).
Proof.
  intros H1 H2. unfold main_body.
  apply agree_below_bind; [apply mono_print_all|]. intros _.
  apply agree_below_bind; [apply mono_input|]. intros choice.
  apply agree_below_if; [|apply agree_below_refl].
  apply agree_below_bind; [apply mono_input|]. intros email.
  apply agree_below_bind; [apply mono_input|]. intros password.
  apply agree_below_bind; [apply mono_call|].
  intros [[|kv d]|]; try apply agree_below_refl.
  apply agree_below_bind; [apply mono_io_lift|]. intros role.
  intros c Hc. rewrite !bind_run.
  destruct (py_eq role (VStr "admin")).
  - now rewrite (agree_admin_menu n f1 f2 (kv :: d) H1 H2 c Hc).
  - now rewrite (agree_user_menu n f1 f2 (kv :: d) H1 H2 c Hc).
Qed.

End Menus.

(** X18. A session on a finite input always ends, and with enough fuel the
    fuel does not matter: with more fuel than lines of input, [main] never
    runs out of fuel (it returns on exit, or stops on [EOFError] or on an
    exception of the store), and every such amount of fuel gives the same
    outcome, console and world. *)
Theorem session_ends (fuel : nat) (c : Console) :
  (length (stdin c) < fuel)%nat ->
  main fuel c = session c /\ fst (session c) <> OutOfFuel.
Proof.
  intros Hfuel. unfold session, main. split.
  - apply (while_true_agree (S (length (stdin c)))); try lia.
    + apply mono_main_body.
    + apply consumes_main_body.
    + apply agree_main_body; lia.
  - apply (safe_while_true _ (mono_main_body _) (consumes_main_body _)
             (S (length (stdin c)))); try lia.
    apply safe_below_main_body.
Qed.

Lemma session_ends_witness :
  main 10 (mkConsole world_two_users ["1"; "ann@dlfs.com"; "pw"; "5"; "2"] []
             (fun n => 1000 + Z.of_nat n) 0) =
  session (mkConsole world_two_users ["1"; "ann@dlfs.com"; "pw"; "5"; "2"] []
             (fun n => 1000 + Z.of_nat n) 0).
Proof.
  apply (session_ends 10). cbn. lia.
Defined.

(** ** The menus and the world *)

Section Relations.

#[global] Instance appended_preorder (who : dict -> Prop) : PreOrder (appended who).
Proof.
  split.
  - intros w. split; [reflexivity|]. split; exists []; now rewrite app_nil_r.
  - intros w1 w2 w3 (Hu & (ni & Hi & Hni) & (nc & Hc & Hnc))
      (Hu' & (ni' & Hi' & Hni') & (nc' & Hc' & Hnc')).
    split; [congruence|]. split.
    + exists (ni ++ ni'). rewrite Hi', Hi, <- app_assoc. split; [reflexivity|].
      now apply Forall_app.
    + exists (nc ++ nc'). rewrite Hc', Hc, <- app_assoc. split; [reflexivity|].
      now apply Forall_app.
Qed.

Lemma same_but_status_trans (a b c : dict) :
  same_but_status a b -> same_but_status b c -> same_but_status a c.
Proof. intros H1 H2 k Hk. now rewrite (H2 k Hk), (H1 k Hk). Qed.

Lemma Forall2_same_trans (l1 l2 l3 : list dict) :
  Forall2 same_but_status l1 l2 -> Forall2 same_but_status l2 l3 ->
  Forall2 same_but_status l1 l3.
Proof.
  intros H. revert l3. induction H as [|a b l1 l2 Hab _ IH]; intros l3 H23.
  - inversion H23. constructor.
  - inversion H23 as [|? c ? l3' Hbc H23']; subst.
    constructor; [now apply (same_but_status_trans a b c)|now apply IH].
Qed.

#[global] Instance status_changed_preorder : PreOrder status_changed.
Proof.
  split.
  - intros w. split; [reflexivity|]. split; apply Forall2_same_refl.
  - intros w1 w2 w3 (Hu & Hc & Hi) (Hu' & Hc' & Hi').
    split; [congruence|]. split; eapply Forall2_same_trans; eassumption.
Qed.

Lemma appended_weaken (who who' : dict -> Prop) (w w' : World) :
  (forall d, who d -> who' d) -> appended who w w' -> appended who' w w'.
Proof.
  intros Hw (Hu & Hi & (nc & Hc & Hnc)). split; [exact Hu|]. split; [exact Hi|].
  exists nc. split; [exact Hc|]. eapply Forall_impl; [exact Hnc|].
  intros d [Hs Hd]. auto.
Qed.

End Relations.

Section Keeps.

Variable R : World -> World -> Prop.
Context `{!PreOrder R}.

Lemma keeps_print_all (lines : list string) : keeps R (print_all lines).
Proof.
  induction lines; cbn [print_all]; [apply keeps_ret; apply _|].
  apply keeps_bind; [apply _|apply keeps_print; apply _|auto].
Qed.

Lemma keeps_print_each (line : dict -> result string) (its : list dict) :
  keeps R (print_each line its).
Proof.
  induction its; cbn [print_each]; [apply keeps_ret; apply _|].
  apply keeps_bind; [apply _|apply keeps_io_lift; apply _|]. intros s.
  apply keeps_bind; [apply _|apply keeps_print; apply _|auto].
Qed.

Lemma keeps_print_results (h n : string) (line : dict -> result string) (rs : list dict) :
  keeps R (print_results h n line rs).
Proof.
  destruct rs; cbn [print_results]; [apply keeps_print; apply _|].
  apply keeps_bind; [apply _|apply keeps_print; apply _|]. intros _.
  apply keeps_print_each.
Qed.

Lemma keeps_while_true (body : IO bool) (fuel : nat) :
  keeps R body -> keeps R (while_true fuel body).
Proof.
  intros Hb. induction fuel as [|fuel IH]; cbn [while_true]; [intros c; reflexivity|].
  apply keeps_bind; [apply _|exact Hb|]. intros [|]; [exact IH|apply keeps_ret; apply _].
Qed.

Lemma keeps_lift_bind {A B} (r : result A) (f : A -> IO B) :
  (forall a, r = Ok a -> keeps R (f a)) -> keeps R (io_lift r ≫= f).
Proof.
  intros H c. rewrite bind_run. destruct r as [a|e]; cbn; [|reflexivity].
  now apply H.
Qed.

Lemma keeps_same {A} (m : IO A) : keeps eq m -> keeps R m.
Proof. intros H c. rewrite <- (H c). reflexivity. Qed.

End Keeps.

Ltac keeps_step :=
  first
    [ apply keeps_ret; apply _
    | apply keeps_print; apply _
    | apply keeps_input; apply _
    | apply keeps_draw; apply _
    | apply keeps_io_lift; apply _
    | apply keeps_print_all; apply _
    | apply keeps_print_results; apply _
    | apply keeps_if
    | apply keeps_lift_bind; [apply _|intros ? ?]
    | apply keeps_bind; [apply _| |intros ?] ].

Section MenuWorld.

Lemma search_items_world (keyword : string) (w : World) : snd (search_items keyword w) = w.
Proof. reflexivity. Qed.

Lemma keeps_search_menu : keeps eq search_menu.
Proof.
  unfold search_menu. cbv zeta.
  repeat keeps_step; apply keeps_call; intros w; reflexivity.
Qed.

Lemma report_item_appended (who : dict -> Prop) (r : Z)
    (name description location item_type user_id : value) (w : World) :
  appended who w (snd (report_item r name description location item_type user_id w)).
Proof.
  rewrite report_item_run. split; [reflexivity|]. split.
  - eexists. split; [reflexivity|]. now repeat constructor.
  - exists []. split; [now rewrite app_nil_r|constructor].
Qed.

Lemma claim_item_appended (who : dict -> Prop) (r : Z) (user_id item_id : value)
    (w : World) :
  who (Claim.__dict__ (Claim.__init__ r user_id item_id)) ->
  appended who w (snd (claim_item r user_id item_id w)).
Proof.
  intros Hwho. rewrite claim_item_run. split; [reflexivity|]. split.
  - exists []. split; [now rewrite app_nil_r|constructor].
  - eexists. split; [reflexivity|]. now repeat constructor.
Qed.

Lemma keeps_user_menu_body (user : dict) :
  keeps (appended (fun d => get "user_id" d = get "id" user)) (user_menu_body user).
Proof.
  unfold user_menu_body, report. repeat keeps_step;
    apply keeps_call; intros w;
    lazymatch goal with
    | |- appended _ _ (snd (report_item _ _ _ _ _ _ _)) => apply report_item_appended
    | |- appended _ _ (snd (search_items _ _)) => reflexivity
    | H : getitem "id" user = Ok _ |- appended _ _ (snd (claim_item _ _ _ _)) =>
        apply claim_item_appended; cbn;
        unfold getitem in H; destruct (get "id" user); congruence
    end.
Qed.

Lemma approve_claim_status (claim_id : value) (w : World) :
  status_changed w (snd (approve_claim claim_id w)).
Proof.
  unfold approve_claim, gets, mbind, M_bind. now apply approve_loop_same.
Qed.

Lemma keeps_admin_menu_body (admin : dict) : keeps status_changed (admin_menu_body admin).
Proof.
  unfold admin_menu_body. repeat keeps_step.
  apply keeps_call. intros w. apply approve_claim_status.
Qed.

End MenuWorld.

(** X19. A user's session only adds: whatever is typed, [user_menu] leaves
    the users and every existing item and claim as they were, in place;
    what it adds at the end are items with status reported and claims
    with status pending that carry the id of the user of the session. *)
Theorem user_menu_appends (fuel : nat) (user : dict) (c : Console) :
  appended (fun d => get "user_id" d = get "id" user)
    (world c) (world (snd (user_menu fuel user c))).
Proof.
  exact (keeps_while_true _ (user_menu_body user) fuel (keeps_user_menu_body user) c).
Qed.

(** X20. An admin's session only changes statuses: whatever is typed,
    [admin_menu] adds no record, removes or moves none, leaves the users
    untouched and keeps every field other than status of every claim and
    item. *)
Theorem admin_menu_status_only (fuel : nat) (admin : dict) (c : Console) :
  status_changed (world c) (world (snd (admin_menu fuel admin c))).
Proof.
  exact (keeps_while_true _ (admin_menu_body admin) fuel (keeps_admin_menu_body admin) c).
Qed.

(** X21. The search menu reads and never writes: whatever is typed and
    whatever the items hold, also when a listing fails on a malformed
    item, [search_menu] leaves the world as it was. *)
Theorem search_menu_read_only (c : Console) :
  world (snd (search_menu c)) = world c.
Proof. symmetry. apply keeps_search_menu. Qed.

(** ** Who may change what *)

Section Access.

#[global] Instance added_unless_admin_preorder : PreOrder added_unless_admin.
Proof.
  split.
  - intros w _. reflexivity.
  - intros w1 w2 w3 H12 H23 Hna. specialize (H12 Hna).
    etransitivity; [exact H12|]. apply H23.
    unfold no_admin. destruct H12 as [-> _]. exact Hna.
Qed.

Lemma login_run (email password : value) (w : World) :
  login email password w = (login_loop email password (users w), w).
Proof. reflexivity. Qed.

Lemma login_loop_elem (email password : value) (us : list dict) (u : dict) :
  login_loop email password us = Ok (Some u) -> u ∈ us.
Proof.
  induction us as [|d us IH]; cbn [login_loop]; [discriminate|].
  destruct (getitem "email" d) as [e|]; [|discriminate]. cbn.
  destruct (py_eq e email); cbn.
  - destruct (getitem "password" d) as [p|]; [|discriminate]. cbn.
    destruct (py_eq p password).
    + intros [= ->]. apply list_elem_of_here.
    + intros H. apply list_elem_of_further. auto.
  - intros H. apply list_elem_of_further. auto.
Qed.

Lemma keeps_user_menu (fuel : nat) (user : dict) :
  keeps (appended (fun d => get "user_id" d = get "id" user)) (user_menu fuel user).
Proof. apply keeps_while_true; [apply _|apply keeps_user_menu_body]. Qed.

Lemma keeps_admin_menu (fuel : nat) (admin : dict) :
  keeps status_changed (admin_menu fuel admin).
Proof. apply keeps_while_true; [apply _|apply keeps_admin_menu_body]. Qed.

Lemma keeps_main_body (fuel : nat) : keeps added_unless_admin (main_body fuel).
Proof.
  unfold main_body.
  apply keeps_bind; [apply _|apply keeps_print_all; apply _|intros _].
  apply keeps_bind; [apply _|apply keeps_input; apply _|intros choice].
  apply keeps_if; [|apply keeps_if; apply keeps_ret; apply _].
  apply keeps_bind; [apply _|apply keeps_input; apply _|intros email].
  apply keeps_bind; [apply _|apply keeps_input; apply _|intros password].
  intros c Hna. rewrite bind_run. unfold call. rewrite login_run.
  destruct (login_loop (VStr email) (VStr password) (users (world c))) as [[u|]|e] eqn:E;
    cbn [snd world set_world]; try reflexivity.
  destruct u as [|kv d]; [reflexivity|].
  apply login_loop_elem in E.
  rewrite bind_run. unfold io_lift.
  destruct (getitem "role" (kv :: d)) as [role|e] eqn:Er; cbn [snd world]; [|reflexivity].
  destruct (py_eq role (VStr "admin")) eqn:Ea.
  - apply py_eq_true in Ea. subst role. exfalso.
    unfold no_admin in Hna. rewrite Forall_forall in Hna.
    apply (Hna _ E). unfold getitem in Er.
    destruct (get "role" (kv :: d)); congruence.
  - rewrite bind_run.
    pose proof (keeps_user_menu fuel (kv :: d)
                  (mkConsole (world c) (stdin c) (stdout c) (randint c) (drawn c))) as H.
    cbn [world] in H.
    destruct (user_menu fuel (kv :: d) _) as [[[]|e| |] c']; cbn [snd world] in *;
      eapply appended_weaken; try exact H; auto.
Qed.

End Access.

(** X22. Without an admin account nobody approves anything: when no user
    record has the role admin, a whole session of [main], whatever is
    typed and whoever logs in, only adds records at the end of the items
    and claims; it changes no user and no status, moves and removes
    nothing, and it leaves no admin among the users. *)
Theorem session_without_admin (fuel : nat) (c : Console) :
  no_admin (world c) ->
  appended (fun _ => True) (world c) (world (snd (main fuel c))) /\
  no_admin (world (snd (main fuel c))).
Proof.
  intros Hna.
  pose proof (keeps_while_true added_unless_admin (main_body fuel) fuel
                (keeps_main_body fuel) c Hna) as H.
  split; [exact H|]. unfold no_admin, main. destruct H as [-> _]. exact Hna.
Qed.

Lemma session_without_admin_witness :
  let c := mkConsole (mkWorld [[("id", VInt 7); ("email", VStr "ann@dlfs.com");
                                ("password", VStr "pw"); ("role", VStr "user")]] [] [] ∅)
             ["1"; "ann@dlfs.com"; "pw"; "1"; "Hat"; "red"; "Gym"; "5"; "2"] []
             (fun n => 1000 + Z.of_nat n) 0 in
  appended (fun _ => True) (world c) (world (snd (main 10 c))) /\
  no_admin (world (snd (main 10 c))).
Proof.
  cbv zeta. apply (session_without_admin 10). cbn. repeat constructor. discriminate.
Defined.

(** X23. Options 1 and 2 of the user menu report what was typed: the three
    lines after the choice are the name, the description and the location
    of the item, its type is lost for option 1 and found for option 2, its
    reporter is the id of the user of the session, one number is drawn,
    and the id printed is the one [report_item] returned. A user record
    without id fails with [KeyError] after the three lines are read, with
    nothing drawn, nothing reported and nothing printed after the
    prompts. *)
Theorem user_menu_body_report (user : dict) (lost : bool) (name desc loc : string)
    (rest : list string) (c : Console) :
  stdin c = (if lost then "1" else "2") :: name :: desc :: loc :: rest ->
  let r := randint c (drawn c) in
  let item_type := if lost then "lost" else "found" in
  let asked := stdout c ++ user_menu_lines ++
                 ["Choose an option: "; "Item name: "; "Description: "; "Location: "] in
  match get "id" user with
  | Some uid =>
      user_menu_body user c =
      (Done true,
       mkConsole
         (snd (report_item r (VStr name) (VStr desc) (VStr loc) (VStr item_type) uid
                 (world c)))
         rest
         (asked ++ [(if lost then "Lost" else "Found") +:+ " item reported. Item ID: ITEM-"
                    +:+ str_of_int r +:+ NL])
         (randint c) (S (drawn c)))
  | None =>
      user_menu_body user c =
      (Raised (KeyError "id"), mkConsole (world c) rest asked (randint c) (drawn c))
  end.
Proof.
  intros Hin. cbv zeta. destruct c as [w inp out rnd k]. cbn [stdin] in Hin. subst inp.
  cbn [world stdin stdout randint drawn].
  destruct (get "id" user) as [uid|] eqn:Eid.
  - destruct lost;
      cbv - [report_item String.append app str_of_int NL getitem];
      unfold getitem; rewrite Eid, report_item_run; cbn [fst snd];
      rewrite <- !app_assoc; reflexivity.
  - destruct lost;
      cbv - [report_item String.append app str_of_int NL getitem];
      unfold getitem; rewrite Eid; cbn [fst snd];
      rewrite <- !app_assoc; reflexivity.
Qed.

Lemma user_menu_body_report_witness :
  let c := mkConsole world_three_items ["2"; "Hat"; "red"; "Gym"; "5"] []
             (fun n => 1000 + Z.of_nat n) 0 in
  user_menu_body [("id", VInt 7)] c =
  (Done true,
   mkConsole
     (snd (report_item 1000 (VStr "Hat") (VStr "red") (VStr "Gym") (VStr "found") (VInt 7)
             world_three_items))
     ["5"]
     (([] ++ user_menu_lines ++
       ["Choose an option: "; "Item name: "; "Description: "; "Location: "]) ++
      ["Found item reported. Item ID: ITEM-1000" +:+ NL])
     (fun n => 1000 + Z.of_nat n) 1).
Proof.
  cbv zeta.
  exact (user_menu_body_report [("id", VInt 7)] false "Hat" "red" "Gym" ["5"]
           (mkConsole world_three_items ["2"; "Hat"; "red"; "Gym"; "5"] []
              (fun n => 1000 + Z.of_nat n) 0) eq_refl).
Defined.

(** X24. Option 1 of the admin menu approves the claim whose id is the
    line typed after the choice, as a str: it prints the approval when
    [approve_claim] returns true, that the claim was not found when it
    returns false, and nothing when it raises; then the console holds the
    world [approve_claim] left, also the half-changed one of a failure. *)
Theorem admin_menu_body_approve (admin : dict) (claim_id : string) (rest : list string)
    (c : Console) :
  stdin c = "1" :: claim_id :: rest ->
  let asked := stdout c ++ admin_menu_lines ++ ["Choose an option: "; "Enter Claim ID: "] in
  let after := approve_claim (VStr claim_id) (world c) in
  admin_menu_body admin c =
  match fst after with
  | Ok approved =>
      (Done true,
       mkConsole (snd after) rest
         (asked ++ [(if approved then "Claim approved." else "Claim not found.") +:+ NL])
         (randint c) (drawn c))
  | Raise e => (Raised e, mkConsole (snd after) rest asked (randint c) (drawn c))
  end.
Proof.
  intros Hin. cbv zeta. destruct c as [w inp out rnd k]. cbn [stdin] in Hin. subst inp.
  cbn [world stdin stdout randint drawn].
  cbv - [approve_claim String.append app NL].
  destruct (approve_claim (VStr claim_id) w) as [[[]|e] w']; cbn [fst snd];
    rewrite <- !app_assoc; reflexivity.
Qed.

Lemma admin_menu_body_approve_witness :
  let c := mkConsole world_three_items ["1"; "CLM-0000"; "2"] []
             (fun n => 1000 + Z.of_nat n) 0 in
  admin_menu_body default_admin c =
  (Done true,
   mkConsole world_three_items ["2"]
     (admin_menu_lines ++ ["Choose an option: "; "Enter Claim ID: "; "Claim not found." +:+ NL])
     (fun n => 1000 + Z.of_nat n) 0).
Proof.
  cbv zeta.
  rewrite (admin_menu_body_approve default_admin "CLM-0000" ["2"]
             (mkConsole world_three_items ["1"; "CLM-0000"; "2"] []
                (fun n => 1000 + Z.of_nat n) 0) eq_refl).
  reflexivity.
Defined.
